(** * Verification of the pinch-zoom core (touch-handler, zoom-controller,
    overlay-manager, utils, PinchZoom orchestrator).

    JavaScript numbers are modelled as rationals extended with the IEEE
    special values [Infinity], [-Infinity] and [NaN]; arithmetic on finite
    values is exact (rounding is not modelled).  Every finite result is kept
    in [Qred] normal form so that Leibniz equality coincides with [==]. *)

From Stdlib Require Import QArith Qround Qfield Lqa ZArith List String Ascii Bool Lia.
Import ListNotations.
Open Scope Q_scope.

(** ** JavaScript numbers *)

Module JS.

Inductive num : Type :=
| Fin (q : Q)
| PInf
| NInf
| NaN.

(** Canonical finite number. *)
Definition fin (q : Q) : num := Fin (Qred q).

(** strict order on rationals *)
Definition Qlt_bool (a b : Q) : bool := negb (Qle_bool b a).

Definition isNaN (x : num) : bool :=
  match x with NaN => true | _ => false end.

(** [x < y] *)
Definition lt (x y : num) : bool :=
  match x, y with
  | NaN, _ | _, NaN => false
  | Fin a, Fin b => Qlt_bool a b
  | NInf, NInf => false
  | NInf, _ => true
  | _, PInf => match x with PInf => false | _ => true end
  | _, _ => false
  end.

(** [x === y] (on numbers; [+0] and [-0] are not distinguished) *)
Definition eqb (x y : num) : bool :=
  match x, y with
  | Fin a, Fin b => Qeq_bool a b
  | PInf, PInf | NInf, NInf => true
  | _, _ => false
  end.

(** [x <= y] *)
Definition le (x y : num) : bool := lt x y || eqb x y.

(** [x > y], [x >= y] *)
Definition gt (x y : num) : bool := lt y x.
Definition ge (x y : num) : bool := le y x.

(** [Math.max] and [Math.min] on two arguments: [NaN] wins. *)
Definition max (x y : num) : num :=
  if isNaN x then NaN else if isNaN y then NaN else if lt x y then y else x.

Definition min (x y : num) : num :=
  if isNaN x then NaN else if isNaN y then NaN else if lt y x then y else x.

Definition neg (x : num) : num :=
  match x with
  | Fin a => fin (- a)
  | PInf => NInf
  | NInf => PInf
  | NaN => NaN
  end.

Definition add (x y : num) : num :=
  match x, y with
  | NaN, _ | _, NaN => NaN
  | Fin a, Fin b => fin (a + b)
  | PInf, NInf | NInf, PInf => NaN
  | PInf, _ | _, PInf => PInf
  | NInf, _ | _, NInf => NInf
  end.

Definition sub (x y : num) : num := add x (neg y).

(** sign of a finite value: [Lt], [Eq] or [Gt] compared with 0 *)
Definition sgn (a : Q) : comparison := Qcompare a 0.

(** an infinity of the given sign *)
Definition inf_of (c : comparison) : num :=
  match c with Gt => PInf | Lt => NInf | Eq => NaN end.

Definition flip (c : comparison) : comparison :=
  match c with Gt => Lt | Lt => Gt | Eq => Eq end.

Definition sign_of (x : num) : comparison :=
  match x with
  | Fin a => sgn a
  | PInf => Gt
  | NInf => Lt
  | NaN => Eq
  end.

Definition mul_sign (c d : comparison) : comparison :=
  match c, d with
  | Eq, _ | _, Eq => Eq
  | Gt, e => e
  | Lt, e => flip e
  end.

Definition mul (x y : num) : num :=
  match x, y with
  | NaN, _ | _, NaN => NaN
  | Fin a, Fin b => fin (a * b)
  | _, _ => inf_of (mul_sign (sign_of x) (sign_of y))
  end.

Definition div (x y : num) : num :=
  match x, y with
  | NaN, _ | _, NaN => NaN
  | Fin a, Fin b =>
      if Qeq_bool b 0 then inf_of (sgn a) else fin (a / b)
  | Fin _, _ => fin 0
  | _, Fin b => inf_of (mul_sign (sign_of x) (if Qeq_bool b 0 then Gt else sgn b))
  | _, _ => NaN
  end.

End JS.

Import JS.

(** ** utils.js *)

(** [clamp(value, min, max) = Math.min(Math.max(value, min), max)] *)
Definition clamp (value min max : num) : num := JS.min (JS.max value min) max.

(** ** The orchestrator's opacity computation
    (PinchZoom.initializeElement, onTouchMove callback):
<<
    const clampedScale = Math.min(Math.max(scaleFactor, this.options.minScale),
                                  this.options.maxScale);
    const opacity = Math.min((0.8 * (clampedScale - 1)) / (this.options.maxScale - 1), 0.8);
>> *)

Definition n08 : num := fin (4 # 5).
Definition n1 : num := fin 1.
Definition n0 : num := fin 0.

Definition move_clampedScale (minScale maxScale scaleFactor : num) : num :=
  JS.min (JS.max scaleFactor minScale) maxScale.

Definition move_opacity (maxScale clampedScale : num) : num :=
  JS.min (div (mul n08 (sub clampedScale n1)) (sub maxScale n1)) n08.

Definition onTouchMove_opacity (minScale maxScale scaleFactor : num) : num :=
  move_opacity maxScale (move_clampedScale minScale maxScale scaleFactor).

(** ** Rendering numbers and strings *)

Module Render.
Local Open Scope string_scope.

Definition digit (n : N) : ascii := ascii_of_N (48 + n).

Fixpoint digits_aux (fuel : nat) (n : N) (acc : string) : string :=
  match fuel with
  | O => acc
  | S f =>
      let acc' := String (digit (N.modulo n 10)) acc in
      if N.eqb (N.div n 10) 0 then acc' else digits_aux f (N.div n 10) acc'
  end.

(** decimal text of a natural number *)
Definition string_of_N (n : N) : string :=
  digits_aux (S (N.to_nat (N.size n))) n "".

(** fractional digits of [r / d] ([0 <= r < d]), at most [fuel] of them,
    stopping when the expansion terminates *)
Fixpoint frac_digits (fuel : nat) (r d : N) : string :=
  match fuel with
  | O => ""
  | S f =>
      if N.eqb r 0 then ""
      else String (digit (N.div (10 * r) d)) (frac_digits f (N.modulo (10 * r) d) d)
  end.

(** Decimal text of a non-negative rational [n / d]. *)
Definition string_of_pos_Q (n d : N) : string :=
  let ip := string_of_N (N.div n d) in
  let r := N.modulo n d in
  if N.eqb r 0 then ip else ip ++ "." ++ frac_digits 20 r d.

(** [String(x)] (the [${x}] of a template literal) for a number.  Finite
    values are written in plain decimal notation, cut after 20 fractional
    digits; this agrees with JavaScript's text whenever that text is the
    exact decimal expansion of the value (for instance 0.5, 0.4, 1000, 2.5). *)
Definition num_to_string (x : num) : string :=
  match x with
  | NaN => "NaN"
  | PInf => "Infinity"
  | NInf => "-Infinity"
  | Fin q =>
      let q' := Qred q in
      match Qnum q' with
      | Z0 => "0"
      | Zpos p => string_of_pos_Q (Npos p) (Npos (Qden q'))
      | Zneg p => "-" ++ string_of_pos_Q (Npos p) (Npos (Qden q'))
      end
  end.

End Render.

Import Render.

(** ** utils.js: getDistance, getMidpoint *)

Record point : Type := mkPoint { clientX : Q; clientY : Q }.

(** Square root of a non-negative rational, rounded down to a multiple of
    [1 / den]: exact whenever the square root is itself rational with that
    denominator (e.g. every integer hypotenuse of integer sides). *)
Definition Qsqrt_floor (s : Q) : Q :=
  let s' := Qred s in Z.sqrt (Qnum s' * Zpos (Qden s')) # Qden s'.

(** [Math.hypot(dx, dy)] on finite coordinates. *)
Definition Math_hypot (dx dy : Q) : num := fin (Qsqrt_floor (dx * dx + dy * dy)).

Definition getDistance (touch1 touch2 : point) : num :=
  Math_hypot (clientX touch2 - clientX touch1) (clientY touch2 - clientY touch1).

Definition getMidpoint (touch1 touch2 : point) : point :=
  mkPoint ((clientX touch1 + clientX touch2) / 2) ((clientY touch1 + clientY touch2) / 2).

(** ** touch-handler.js: TouchHandler

    The handlers receive the already extracted touch list
    ([this.extractTouches(event)]); [normalizeEvent] returns the event
    itself for every event the platform delivers.  Each handler returns the
    new state, the callbacks it invoked (the orchestrator registers all
    three) and whether it called [event.preventDefault()]. *)

Record TouchHandler : Type := mkTouchHandler {
  isActive : bool;
  initialDistance : num;
  currentScale : num;
  touches : list point
}.

Inductive gesture_event : Type :=
| GestureStart (initialDistance : num) (midpoint : point) (touches : list point)
| GestureMove (scaleFactor currentScale : num) (midpoint : point)
    (touches : list point) (initialDistance currentDistance : num)
| GestureEnd.

(** [new TouchHandler(element, callbacks)] *)
Definition TouchHandler_new : TouchHandler :=
  mkTouchHandler false (fin 0) (fin 1) [].

Definition handleTouchStart (th : TouchHandler) (ts : list point)
  : TouchHandler * list gesture_event * bool :=
  match ts with
  | [touch1; touch2] =>
      let d := getDistance touch1 touch2 in
      let th' := mkTouchHandler true d (currentScale th) ts in
      (th', [GestureStart d (getMidpoint touch1 touch2) ts], true)
  | _ => (th, [], false)
  end.

Definition handleTouchMove (th : TouchHandler) (ts : list point)
  : TouchHandler * list gesture_event * bool :=
  match ts with
  | [touch1; touch2] =>
      if isActive th then
        let currentDistance := getDistance touch1 touch2 in
        let midpoint := getMidpoint touch1 touch2 in
        let scaleFactor := div currentDistance (initialDistance th) in
        let th' := mkTouchHandler (isActive th) (initialDistance th) scaleFactor ts in
        (th', [GestureMove scaleFactor scaleFactor midpoint ts
                 (initialDistance th) currentDistance], true)
      else (th, [], false)
  | _ => (th, [], false)
  end.

Definition handleTouchEnd (th : TouchHandler) (ts : list point)
  : TouchHandler * list gesture_event * bool :=
  match ts with
  | [] =>
      if isActive th then
        (mkTouchHandler false (fin 0) (fin 1) [], [GestureEnd], true)
      else (th, [], false)
  | _ => (th, [], false)
  end.

(** Platform events, classified by the event name they are bound to
    ([touchcancel] is bound to [handleTouchEnd] as well). *)
Inductive input : Type :=
| EvStart (ts : list point)
| EvMove (ts : list point)
| EvEnd (ts : list point).

Definition step (th : TouchHandler) (ev : input)
  : TouchHandler * list gesture_event * bool :=
  match ev with
  | EvStart ts => handleTouchStart th ts
  | EvMove ts => handleTouchMove th ts
  | EvEnd ts => handleTouchEnd th ts
  end.

Fixpoint run (th : TouchHandler) (evs : list input) : TouchHandler * list gesture_event :=
  match evs with
  | [] => (th, [])
  | ev :: evs' =>
      let '(th1, out1, _) := step th ev in
      let '(th2, out2) := run th1 evs' in
      (th2, out1 ++ out2)
  end.

(** [initialDistance] is always a finite non-negative number. *)
Definition dist_inv (th : TouchHandler) : Prop :=
  exists d, initialDistance th = Fin d /\ 0 <= d.

(** ** zoom-controller.js: ZoomController

    The element's inline style is a record of the properties the controller
    writes.  The utils [applyTransform] / [applyTransition] helpers write the
    same value to the standard property and to every vendor-prefixed variant
    the style object has; these are one slot each here. *)

Module Zoom.
Local Open Scope string_scope.

Record Style : Type := mkStyle {
  st_transform : string;
  st_width : string;
  st_height : string;
  st_zIndex : string;
  st_position : string;
  st_transition : string
}.

Record ZoomController : Type := mkZoomController {
  minScale : num;
  maxScale : num;
  (** [this.options.zIndex], as its style text ([""] when absent) *)
  optZIndex : string;
  (** [this.transformSupport.supported] *)
  transformSupported : bool;
  (** [element.naturalWidth || element.offsetWidth] and the same for heights *)
  originalWidth : num;
  originalHeight : num;
  zc_currentScale : num;
  currentTranslateX : num;
  currentTranslateY : num;
  style : Style
}.

Definition set_style (zc : ZoomController) (st : Style) : ZoomController :=
  mkZoomController (minScale zc) (maxScale zc) (optZIndex zc) (transformSupported zc)
    (originalWidth zc) (originalHeight zc) (zc_currentScale zc)
    (currentTranslateX zc) (currentTranslateY zc) st.

Definition set_transform (zc : ZoomController) (v : string) : ZoomController :=
  let st := style zc in
  set_style zc (mkStyle v (st_width st) (st_height st) (st_zIndex st) (st_position st) (st_transition st)).

Definition set_size (zc : ZoomController) (w h : string) : ZoomController :=
  let st := style zc in
  set_style zc (mkStyle (st_transform st) w h (st_zIndex st) (st_position st) (st_transition st)).

Definition set_stacking (zc : ZoomController) (z p : string) : ZoomController :=
  let st := style zc in
  set_style zc (mkStyle (st_transform st) (st_width st) (st_height st) z p (st_transition st)).

(** utils.js [applyTransition(element, value)] *)
Definition applyTransition (zc : ZoomController) (v : string) : ZoomController :=
  let st := style zc in
  set_style zc (mkStyle (st_transform st) (st_width st) (st_height st) (st_zIndex st) (st_position st) v).

(** utils.js [applyTransform(element, value)]: writes only when transforms
    are supported. *)
Definition applyTransform_util (zc : ZoomController) (v : string) : ZoomController :=
  if transformSupported zc then set_transform zc v else zc.

Definition set_scale (zc : ZoomController) (s tx ty : num) : ZoomController :=
  mkZoomController (minScale zc) (maxScale zc) (optZIndex zc) (transformSupported zc)
    (originalWidth zc) (originalHeight zc) s tx ty (style zc).

(** truthiness of a number *)
Definition truthy (x : num) : bool := negb (isNaN x || eqb x (fin 0)).

Definition applyFallbackTransform (zc : ZoomController) (scale : num) : ZoomController :=
  if truthy (originalWidth zc) && truthy (originalHeight zc) then
    set_size zc (num_to_string (mul (originalWidth zc) scale) ++ "px")
                (num_to_string (mul (originalHeight zc) scale) ++ "px")
  else zc.

(** [applyTransform(scale, translateX, translateY)]; [safeExecute] returns
    the body's [true] (no step of the body throws in this model). *)
Definition applyTransform (zc : ZoomController) (scale translateX translateY : num)
  : bool * ZoomController :=
  let clampedScale := clamp scale (minScale zc) (maxScale zc) in
  let zc1 := set_scale zc clampedScale translateX translateY in
  let zc2 :=
    if transformSupported zc1 then
      applyTransform_util zc1
        ("scale(" ++ num_to_string clampedScale ++ ") translate("
           ++ num_to_string translateX ++ "px, " ++ num_to_string translateY ++ "px)")
    else applyFallbackTransform zc1 clampedScale in
  let zc3 :=
    if gt clampedScale (fin 1) then
      set_stacking zc2 (if String.eqb (optZIndex zc2) "" then "1000" else optZIndex zc2)
        "relative"
    else zc2 in
  (true, zc3).

Definition resetTransform (zc : ZoomController) : bool * ZoomController :=
  let zc1 := set_scale zc (fin 1) (fin 0) (fin 0) in
  let zc2 :=
    if transformSupported zc1 then applyTransform_util zc1 "scale(1) translate(0px, 0px)"
    else set_size zc1 "" "" in
  (true, zc2).

Record TransformState : Type := mkTransformState {
  ts_scale : num;
  ts_translateX : num;
  ts_translateY : num;
  ts_isZoomed : bool
}.

Definition getTransformState (zc : ZoomController) : TransformState :=
  mkTransformState (zc_currentScale zc) (currentTranslateX zc) (currentTranslateY zc)
    (gt (zc_currentScale zc) (fin 1)).

(** [new ZoomController(element, options)]: the constructor's fields and
    [setupElement()]. *)
Definition ZoomController_new (minScale maxScale : num) (zIndex transitionDuration : string)
  (supported : bool) (w h : num) (st : Style) : ZoomController :=
  let zc := mkZoomController minScale maxScale zIndex supported w h (fin 1) (fin 0) (fin 0) st in
  let zc1 := applyTransition zc ("transform " ++ transitionDuration ++ " ease-out") in
  if supported then zc1
  else applyTransition zc1 ("width " ++ transitionDuration ++ " ease-out, height "
                             ++ transitionDuration ++ " ease-out").

Definition destroy (zc : ZoomController) : bool * ZoomController :=
  let zc1 := snd (resetTransform zc) in
  let zc2 := applyTransition zc1 "" in
  let zc3 := set_stacking zc2 "" "" in
  (true, zc3).

(** [calculateScale(initialDistance, currentDistance)] *)
Definition calculateScale (zc : ZoomController) (initialDistance currentDistance : num) : num :=
  if eqb initialDistance (fin 0) then fin 1
  else clamp (div currentDistance initialDistance) (minScale zc) (maxScale zc).

(** The [handleTransitionEnd] listener installed by [onTransitionEnd]
    (before it calls the callback). *)
Definition handleTransitionEnd (zc : ZoomController) : ZoomController :=
  if eqb (zc_currentScale zc) (fin 1) then set_stacking zc "" "" else zc.

(** [updateOptions(newOptions)] for an options object that carries every
    field, as the orchestrator passes it (the whole validated
    configuration); [zIndex] is the text [this.options.zIndex || "1000"]
    falls back from ([""] for a falsy value). *)
Definition updateOptions (zc : ZoomController) (minScale maxScale : num)
  (zIndex transitionDuration : string) : ZoomController :=
  let zc1 := mkZoomController minScale maxScale zIndex (transformSupported zc)
               (originalWidth zc) (originalHeight zc) (zc_currentScale zc)
               (currentTranslateX zc) (currentTranslateY zc) (style zc) in
  if String.eqb transitionDuration "" then zc1
  else
    let zc2 := applyTransition zc1 ("transform " ++ transitionDuration ++ " ease-out") in
    if transformSupported zc2 then zc2
    else applyTransition zc2 ("width " ++ transitionDuration ++ " ease-out, height "
                               ++ transitionDuration ++ " ease-out").

(** A controller as the orchestrator builds it from the library defaults,
    for an element of natural size 100 x 100 with transform support. *)
Definition sample_controller : ZoomController :=
  ZoomController_new (fin 1) (fin 5) "1000" "0.3s" true (fin 100) (fin 100)
    (mkStyle "" "" "" "" "" "").

End Zoom.

(** ** overlay-manager.js: OverlayManager

    [setTimeout(f, 100)] appends the closure to a queue of pending timers;
    all of them have the same delay, so they fire in the order they were
    scheduled ([fireTimer]).  The hide closure captures the local constant
    [clampedOpacity] of the [updateOverlay] call that scheduled it. *)

Module Overlay.
Local Open Scope string_scope.

(** The created [div#pinch-zoom-overlay] element. *)
Record OverlayEl : Type := mkOverlayEl {
  ov_display : string;
  ov_backgroundColor : string;
  ov_zIndex : string;
  (** [overlay.parentNode] is set *)
  ov_attached : bool
}.

Record OverlayManager : Type := mkOverlayManager {
  (** [this.options.backgroundColor] *)
  optBackgroundColor : string;
  (** [this.options.zIndex.toString()] *)
  optZIndex : string;
  overlay : option OverlayEl;
  isVisible : bool;
  (** pending hide timers, by the [clampedOpacity] each one captured *)
  timers : list num
}.

(** *** parseBackgroundColor *)

Definition is_digit (c : ascii) : bool :=
  let n := nat_of_ascii c in Nat.leb 48 n && Nat.leb n 57.

(** [\s] on ASCII text: space, tab, LF, VT, FF, CR *)
Definition is_space (c : ascii) : bool :=
  let n := nat_of_ascii c in Nat.eqb n 32 || (Nat.leb 9 n && Nat.leb n 13).

(** greedy [c*] for a character class: the longest prefix and the rest *)
Fixpoint span (p : ascii -> bool) (s : string) : string * string :=
  match s with
  | String c s' =>
      if p c then let '(a, b) := span p s' in (String c a, b) else ("", s)
  | EmptyString => ("", "")
  end.

(** greedy [c+] *)
Definition span1 (p : ascii -> bool) (s : string) : option (string * string) :=
  match span p s with
  | (EmptyString, _) => None
  | r => Some r
  end.

Definition expect (c : ascii) (s : string) : option string :=
  match s with
  | String c' s' => if Ascii.eqb c c' then Some s' else None
  | EmptyString => None
  end.

Definition is_digit_or_dot (c : ascii) : bool := is_digit c || Ascii.eqb c ".".

(** [/rgba?\((\d+),\s*(\d+),\s*(\d+)(?:,\s*([\d.]+))?\)/] anchored at the
    start of [s]; returns the three captured channels. *)
Definition rgba_at (s : string) : option (string * string * string) :=
  match s with
  | String "r" (String "g" (String "b" s1)) =>
      let s2 := match s1 with String "a" s' => s' | _ => s1 end in
      match expect "(" s2 with
      | None => None
      | Some s3 =>
      match span1 is_digit s3 with
      | None => None
      | Some (r, s4) =>
      match expect "," s4 with
      | None => None
      | Some s5 =>
      match span1 is_digit (snd (span is_space s5)) with
      | None => None
      | Some (g, s6) =>
      match expect "," s6 with
      | None => None
      | Some s7 =>
      match span1 is_digit (snd (span is_space s7)) with
      | None => None
      | Some (b, s8) =>
          let with_alpha :=
            match expect "," s8 with
            | Some s9 =>
                match span1 is_digit_or_dot (snd (span is_space s9)) with
                | Some (_, s10) => expect ")" s10
                | None => None
                end
            | None => None
            end in
          match with_alpha with
          | Some _ => Some (r, g, b)
          | None =>
              match expect ")" s8 with
              | Some _ => Some (r, g, b)
              | None => None
              end
          end
      end end end end end end
  | _ => None
  end.

(** [backgroundColor.match(rgbaRegex)]: the regex is not anchored, so the
    leftmost position where it matches is taken. *)
Fixpoint rgba_search (s : string) : option (string * string * string) :=
  match rgba_at s with
  | Some m => Some m
  | None =>
      match s with
      | EmptyString => None
      | String _ s' => rgba_search s'
      end
  end.

(** value of a hexadecimal digit ([/[a-f\d]/i]) *)
Definition hex_val (c : ascii) : option N :=
  let n := N_of_ascii c in
  if (48 <=? n)%N && (n <=? 57)%N then Some (n - 48)%N
  else if (97 <=? n)%N && (n <=? 102)%N then Some (n - 87)%N
  else if (65 <=? n)%N && (n <=? 70)%N then Some (n - 55)%N
  else None.

(** [parseInt(c1 + c2, 16)] on two hexadecimal digits *)
Definition hex2 (c1 c2 : ascii) : option N :=
  match hex_val c1, hex_val c2 with
  | Some a, Some b => Some (16 * a + b)%N
  | _, _ => None
  end.

(** [/^#([a-f\d]{3}|[a-f\d]{6})$/i] followed by the channel computation *)
Definition hex_channels (s : string) : option (N * N * N) :=
  match s with
  | String "#" (String a (String b (String c EmptyString))) =>
      match hex2 a a, hex2 b b, hex2 c c with
      | Some r, Some g, Some bl => Some (r, g, bl)
      | _, _, _ => None
      end
  | String "#" (String a1 (String a2 (String b1 (String b2 (String c1 (String c2 EmptyString)))))) =>
      match hex2 a1 a2, hex2 b1 b2, hex2 c1 c2 with
      | Some r, Some g, Some bl => Some (r, g, bl)
      | _, _, _ => None
      end
  | _ => None
  end.

Definition rgba_text (r g b opacity : string) : string :=
  "rgba(" ++ r ++ ", " ++ g ++ ", " ++ b ++ ", " ++ opacity ++ ")".

Definition parseBackgroundColor (backgroundColor : string) (opacity : num) : string :=
  match rgba_search backgroundColor with
  | Some (r, g, b) => rgba_text r g b (num_to_string opacity)
  | None =>
      match hex_channels backgroundColor with
      | Some (r, g, b) =>
          rgba_text (string_of_N r) (string_of_N g) (string_of_N b) (num_to_string opacity)
      | None => rgba_text "255" "255" "255" (num_to_string opacity)
      end
  end.

(** Whether the text [rgb] occurs in [s] (a statement helper: where the
    unanchored rgb/rgba pattern can begin a match). *)
Fixpoint has_rgb (s : string) : bool :=
  match s with
  | EmptyString => false
  | String _ s' => String.prefix "rgb" s || has_rgb s'
  end.

(** *** Operations *)

Definition set_overlay (om : OverlayManager) (o : option OverlayEl) (vis : bool)
  (ts : list num) : OverlayManager :=
  mkOverlayManager (optBackgroundColor om) (optZIndex om) o vis ts.

(** [new OverlayManager(options)] *)
Definition OverlayManager_new (backgroundColor zIndex : string) : OverlayManager :=
  mkOverlayManager backgroundColor zIndex None false [].

Definition createOverlay (om : OverlayManager) : OverlayManager :=
  match overlay om with
  | Some _ => om
  | None =>
      set_overlay om
        (Some (mkOverlayEl "none" "rgba(255, 255, 255, 0)" (optZIndex om) true))
        (isVisible om) (timers om)
  end.

Definition updateOverlay (om : OverlayManager) (opacity : num) : bool * OverlayManager :=
  let om1 := match overlay om with None => createOverlay om | Some _ => om end in
  match overlay om1 with
  | None => (false, om1)
  | Some el =>
      let clampedOpacity := JS.max (fin 0) (JS.min (fin 1) opacity) in
      if gt clampedOpacity (fin 0) then
        let bg := parseBackgroundColor (optBackgroundColor om1) clampedOpacity in
        (true, set_overlay om1
                 (Some (mkOverlayEl "block" bg (ov_zIndex el) (ov_attached el)))
                 true (timers om1))
      else
        (true, set_overlay om1
                 (Some (mkOverlayEl (ov_display el) "rgba(255, 255, 255, 0)"
                          (ov_zIndex el) (ov_attached el)))
                 (isVisible om1) (timers om1 ++ [clampedOpacity]))
  end.

(** The body of the hide closure
    [() => { if (this.overlay && clampedOpacity === 0) { ... } }]. *)
Definition hideTimerBody (om : OverlayManager) (clampedOpacity : num) : OverlayManager :=
  match overlay om with
  | Some el =>
      if eqb clampedOpacity (fin 0) then
        set_overlay om
          (Some (mkOverlayEl "none" (ov_backgroundColor el) (ov_zIndex el) (ov_attached el)))
          false (timers om)
      else om
  | None => om
  end.

(** The oldest pending timer fires. *)
Definition fireTimer (om : OverlayManager) : OverlayManager :=
  match timers om with
  | [] => om
  | c :: rest => hideTimerBody (set_overlay om (overlay om) (isVisible om) rest) c
  end.

Definition removeOverlay (om : OverlayManager) : bool * OverlayManager :=
  match overlay om with
  | Some el =>
      if ov_attached el then (true, set_overlay om None false (timers om))
      else (true, om)
  | None => (true, om)
  end.

Definition destroy (om : OverlayManager) : bool * OverlayManager := removeOverlay om.

(** Whether the backdrop is displayed, and with which background. *)
Definition displayed (om : OverlayManager) : option string :=
  match overlay om with
  | Some el => if String.eqb (ov_display el) "none" then None else Some (ov_backgroundColor el)
  | None => None
  end.

(** [updateOptions(newOptions)] for an options object that carries
    [backgroundColor] and [zIndex] (a number). *)
Definition updateOptions (om : OverlayManager) (backgroundColor : string) (zIndex : num)
  : OverlayManager :=
  let ov :=
    match overlay om with
    | Some el =>
        if Zoom.truthy zIndex
        then Some (mkOverlayEl (ov_display el) (ov_backgroundColor el) (num_to_string zIndex)
                     (ov_attached el))
        else Some el
    | None => None
    end in
  mkOverlayManager backgroundColor (num_to_string zIndex) ov (isVisible om) (timers om).

(** The operations a client can perform on a manager, and the firing of
    its oldest pending timer. *)
Inductive op : Type :=
| OpCreate
| OpUpdate (opacity : num)
| OpFire
| OpRemove
| OpUpdateOptions (backgroundColor : string) (zIndex : num).

Definition apply_op (om : OverlayManager) (o : op) : OverlayManager :=
  match o with
  | OpCreate => createOverlay om
  | OpUpdate opacity => snd (updateOverlay om opacity)
  | OpFire => fireTimer om
  | OpRemove => snd (removeOverlay om)
  | OpUpdateOptions bg z => updateOptions om bg z
  end.

Fixpoint run_ops (om : OverlayManager) (os : list op) : OverlayManager :=
  match os with
  | [] => om
  | o :: os' => run_ops (apply_op om o) os'
  end.

(** [n] timers fire, oldest first. *)
Fixpoint fireTimers (n : nat) (om : OverlayManager) : OverlayManager :=
  match n with
  | O => om
  | S n' => fireTimers n' (fireTimer om)
  end.

(** Every pending timer fires. *)
Definition flushTimers (om : OverlayManager) : OverlayManager :=
  fireTimers (List.length (timers om)) om.

End Overlay.

(** ** utils.js: validateAndSanitizeOptions *)

Module Options.
Local Open Scope string_scope.

(** JavaScript values that an option field can hold.  An object carries the
    number its [valueOf]/[toString] conversion yields. *)
Inductive jsval : Type :=
| JUndefined
| JNull
| JBool (b : bool)
| JNumber (n : num)
| JString (s : string)
| JObject (valueOf : num).

(** The [options] argument: an object (absent fields read as [undefined]),
    or any other value ([null], a primitive). *)
Record OptionsObj : Type := mkOptionsObj {
  o_backgroundColor : jsval;
  o_maxScale : jsval;
  o_minScale : jsval;
  o_transitionDuration : jsval;
  o_zIndex : jsval
}.

Inductive options_arg : Type :=
| OptObject (o : OptionsObj)
| OptOther (v : jsval).

(** The sanitized configuration. *)
Record Config : Type := mkConfig {
  backgroundColor : string;
  maxScale : num;
  minScale : num;
  transitionDuration : string;
  zIndex : num
}.

(** The [errors] array, by the check that pushed each message. *)
Inductive option_error : Type :=
| ErrNotObject
| ErrBackgroundColor
| ErrMaxScale
| ErrMinScale
| ErrTransitionDuration
| ErrZIndex
| ErrMinNotBelowMax.

(** rollup.config.js [DEFAULT_OPTIONS] *)
Definition DEFAULT_OPTIONS : Config :=
  mkConfig "rgba(255, 255, 255, 0.8)" (fin 5) (fin 1) "0.3s" (fin 1000).

(** [String.prototype.trim] on ASCII white space *)
Fixpoint trim_start (s : string) : string :=
  match s with
  | String c s' => if Overlay.is_space c then trim_start s' else s
  | EmptyString => EmptyString
  end.

Definition trim (s : string) : string :=
  string_of_list_ascii (rev (list_ascii_of_string
    (trim_start (string_of_list_ascii (rev (list_ascii_of_string (trim_start s))))))).

(** [/^\d+(\.\d+)?(s|ms)$/.test(s)] *)
Definition is_duration (s : string) : bool :=
  match Overlay.span1 Overlay.is_digit s with
  | None => false
  | Some (_, s1) =>
      let unit_ok t := String.eqb t "s" || String.eqb t "ms" in
      match s1 with
      | String "." s2 =>
          match Overlay.span1 Overlay.is_digit s2 with
          | Some (_, s3) => unit_ok s3
          | None => false
          end
      | _ => unit_ok s1
      end
  end.

(** [Number.isInteger] *)
Definition isInteger (x : num) : bool :=
  match x with
  | Fin q => Z.eqb (Zpos (Qden (Qred q))) 1
  | _ => false
  end.

(** The scale bounds the orchestrator relies on. *)
Definition scale_range (c : Config) : Prop :=
  exists mn mx, minScale c = Fin mn /\ maxScale c = Fin mx /\
                (1 # 10) <= mn /\ mn <= 1 /\ 1 < mx /\ mx <= 10.

Section Validate.

(** [Number(s)] for a string: any conversion function. *)
Variable StringToNumber : string -> num.

(** [Number(v)] *)
Definition ToNumber (v : jsval) : num :=
  match v with
  | JUndefined => NaN
  | JNull => fin 0
  | JBool b => if b then fin 1 else fin 0
  | JNumber n => n
  | JString s => StringToNumber s
  | JObject n => n
  end.

Definition is_undefined (v : jsval) : bool :=
  match v with JUndefined => true | _ => false end.

(** The per-field checks of [validateAndSanitizeOptions]: the sanitized
    value and the errors pushed. *)
Definition check_backgroundColor (v : jsval) (dflt : string) : string * list option_error :=
  if is_undefined v then (dflt, [])
  else match v with
       | JString s =>
           if negb (String.eqb (trim s) "") then (s, []) else (dflt, [ErrBackgroundColor])
       | _ => (dflt, [ErrBackgroundColor])
       end.

Definition check_maxScale (v : jsval) (dflt : num) : num * list option_error :=
  if is_undefined v then (dflt, [])
  else let m := ToNumber v in
       if negb (isNaN m) && gt m (fin 1) && le m (fin 10) then (m, [])
       else (dflt, [ErrMaxScale]).

Definition check_minScale (v : jsval) (dflt : num) : num * list option_error :=
  if is_undefined v then (dflt, [])
  else let m := ToNumber v in
       if negb (isNaN m) && ge m (fin (1 # 10)) && le m (fin 1) then (m, [])
       else (dflt, [ErrMinScale]).

Definition check_transitionDuration (v : jsval) (dflt : string) : string * list option_error :=
  if is_undefined v then (dflt, [])
  else match v with
       | JString s =>
           if is_duration (trim s) then (s, []) else (dflt, [ErrTransitionDuration])
       | _ => (dflt, [ErrTransitionDuration])
       end.

Definition check_zIndex (v : jsval) (dflt : num) : num * list option_error :=
  if is_undefined v then (dflt, [])
  else let z := ToNumber v in
       if negb (isNaN z) && isInteger z && ge z (fin 0) then (z, [])
       else (dflt, [ErrZIndex]).

Definition validateAndSanitizeOptions (options : options_arg) (defaults : Config)
  : Config * list option_error :=
  match options with
  | OptOther _ => (defaults, [ErrNotObject])
  | OptObject o =>
      let '(bg, e1) := check_backgroundColor (o_backgroundColor o) (backgroundColor defaults) in
      let '(mx, e2) := check_maxScale (o_maxScale o) (maxScale defaults) in
      let '(mn, e3) := check_minScale (o_minScale o) (minScale defaults) in
      let '(td, e4) :=
        check_transitionDuration (o_transitionDuration o) (transitionDuration defaults) in
      let '(zi, e5) := check_zIndex (o_zIndex o) (zIndex defaults) in
      let errors := (e1 ++ e2 ++ e3 ++ e4 ++ e5)%list in
      (* minScale >= maxScale *)
      if ge mn mx then
        (mkConfig bg mx (JS.min mn (sub mx (fin (1 # 10)))) td zi,
         (errors ++ [ErrMinNotBelowMax])%list)
      else (mkConfig bg mx mn td zi, errors)
  end.

End Validate.

(** A configuration passed back as an options object ([{ ...this.options }]). *)
Definition as_options (c : Config) : options_arg :=
  OptObject (mkOptionsObj (JString (backgroundColor c)) (JNumber (maxScale c))
               (JNumber (minScale c)) (JString (transitionDuration c)) (JNumber (zIndex c))).

End Options.

(** ** rollup.config.js: PinchZoom, one initialized element

    [initializeElement] builds an [OverlayManager] and a [ZoomController]
    from [this.options], a [TouchHandler] whose callbacks drive them, and a
    transition-end hook.  The callbacks read [this.options], which
    [updateOptions] replaces.  The hook's 50 ms timers are counted in
    [transitionTimers]; the overlay's 100 ms timers stay in the manager.
    Timers of the two kinds fire in any order the environment picks. *)

Module PinchZoom.
Local Open Scope string_scope.

Record PZ : Type := mkPZ {
  options : Options.Config;
  touchHandler : TouchHandler;
  zoomController : Zoom.ZoomController;
  overlayManager : Overlay.OverlayManager;
  (** pending [setTimeout(() => overlayManager.updateOverlay(0), 50)] *)
  transitionTimers : nat
}.

Definition set_parts (pz : PZ) (zc : Zoom.ZoomController) (om : Overlay.OverlayManager) : PZ :=
  mkPZ (options pz) (touchHandler pz) zc om (transitionTimers pz).

(** the text [this.options.zIndex || "1000"] falls back from *)
Definition zIndex_text (z : num) : string := if Zoom.truthy z then num_to_string z else "".

(** The components [initializeElement] builds for an element (transform
    support, natural size and inline style given). *)
Definition instance_new (c : Options.Config) (supported : bool) (w h : num)
  (st : Zoom.Style) : PZ :=
  mkPZ c TouchHandler_new
    (Zoom.ZoomController_new (Options.minScale c) (Options.maxScale c)
       (zIndex_text (Options.zIndex c)) (Options.transitionDuration c) supported w h st)
    (Overlay.OverlayManager_new (Options.backgroundColor c) (num_to_string (Options.zIndex c)))
    0.

(** [touchCallbacks.onTouchStart] *)
Definition onTouchStart (pz : PZ) : PZ :=
  set_parts pz (zoomController pz) (Overlay.createOverlay (overlayManager pz)).

(** [touchCallbacks.onTouchMove(data)] *)
Definition onTouchMove (pz : PZ) (scaleFactor : num) : PZ :=
  let c := options pz in
  let clampedScale := move_clampedScale (Options.minScale c) (Options.maxScale c) scaleFactor in
  let zc := snd (Zoom.applyTransform (zoomController pz) clampedScale (fin 0) (fin 0)) in
  let opacity := move_opacity (Options.maxScale c) clampedScale in
  set_parts pz zc (snd (Overlay.updateOverlay (overlayManager pz) opacity)).

(** [touchCallbacks.onTouchEnd] *)
Definition onTouchEnd (pz : PZ) : PZ :=
  set_parts pz (snd (Zoom.resetTransform (zoomController pz)))
    (snd (Overlay.updateOverlay (overlayManager pz) (fin 0))).

Definition dispatch (pz : PZ) (e : gesture_event) : PZ :=
  match e with
  | GestureStart _ _ _ => onTouchStart pz
  | GestureMove scaleFactor _ _ _ _ _ => onTouchMove pz scaleFactor
  | GestureEnd => onTouchEnd pz
  end.

(** A [transitionend] event: the controller's listener, then the hook,
    which schedules the 50 ms hide when the element is not zoomed. *)
Definition onTransitionEnd (pz : PZ) : PZ :=
  let zc := Zoom.handleTransitionEnd (zoomController pz) in
  let n := transitionTimers pz in
  mkPZ (options pz) (touchHandler pz) zc (overlayManager pz)
    (if Zoom.ts_isZoomed (Zoom.getTransformState zc) then n else S n).

(** The oldest 50 ms timer fires. *)
Definition fireTransitionTimer (pz : PZ) : PZ :=
  match transitionTimers pz with
  | O => pz
  | S n =>
      mkPZ (options pz) (touchHandler pz) (zoomController pz)
        (snd (Overlay.updateOverlay (overlayManager pz) (fin 0))) n
  end.

Section WithNumber.
Variable StringToNumber : string -> num.

(** [updateOptions(newOptions)] *)
Definition updateOptions (pz : PZ) (newOptions : Options.options_arg) : PZ :=
  match newOptions with
  | Options.OptOther _ => pz
  | Options.OptObject _ =>
      let v := fst (Options.validateAndSanitizeOptions StringToNumber newOptions (options pz)) in
      mkPZ v (touchHandler pz)
        (Zoom.updateOptions (zoomController pz) (Options.minScale v) (Options.maxScale v)
           (zIndex_text (Options.zIndex v)) (Options.transitionDuration v))
        (Overlay.updateOptions (overlayManager pz) (Options.backgroundColor v) (Options.zIndex v))
        (transitionTimers pz)
  end.

Inductive event : Type :=
| Touch (ev : input)
| TransitionEnd
| TransitionTimer
| OverlayTimer
| UpdateOptions (newOptions : Options.options_arg).

Definition pz_step (pz : PZ) (ev : event) : PZ :=
  match ev with
  | Touch e =>
      let '(th, out, _) := step (touchHandler pz) e in
      fold_left dispatch out
        (mkPZ (options pz) th (zoomController pz) (overlayManager pz) (transitionTimers pz))
  | TransitionEnd => onTransitionEnd pz
  | TransitionTimer => fireTransitionTimer pz
  | OverlayTimer => set_parts pz (zoomController pz) (Overlay.fireTimer (overlayManager pz))
  | UpdateOptions o => updateOptions pz o
  end.

Fixpoint pz_run (pz : PZ) (evs : list event) : PZ :=
  match evs with
  | [] => pz
  | ev :: evs' => pz_run (pz_step pz ev) evs'
  end.

End WithNumber.

End PinchZoom.

(** ** Arithmetic facts about the number model *)

Module JSFacts.

Lemma fin_Qeq (a b : Q) : a == b -> fin a = fin b.
Proof. intros H. unfold fin. f_equal. now apply Qred_complete. Qed.

Lemma Qlt_bool_iff (a b : Q) : Qlt_bool a b = true <-> a < b.
Proof.
  unfold Qlt_bool. rewrite negb_true_iff. split; intros H.
  - apply Qnot_le_lt. intros H'. apply Qle_bool_iff in H'. congruence.
  - destruct (Qle_bool b a) eqn:E; [|reflexivity].
    apply Qle_bool_iff in E. exfalso. apply (Qlt_not_le _ _ H E).
Qed.

Lemma Qlt_bool_false (a b : Q) : Qlt_bool a b = false <-> b <= a.
Proof.
  unfold Qlt_bool. rewrite negb_false_iff. apply Qle_bool_iff.
Qed.

Lemma le_Fin (a b : Q) : le (Fin a) (Fin b) = true <-> a <= b.
Proof.
  unfold le; simpl. rewrite orb_true_iff, Qlt_bool_iff, Qeq_bool_iff.
  split.
  - intros [H|H]; [now apply Qlt_le_weak | rewrite H; apply Qle_refl].
  - intros H. destruct (Qeq_dec a b) as [E|E]; [now right|left].
    now apply Qle_lt_or_eq in H as [H|H]; [|contradiction].
Qed.

Lemma sub_Fin (a b : Q) : sub (Fin a) (Fin b) = fin (a - b).
Proof.
  unfold sub, add, neg, fin. f_equal. apply Qred_complete.
  rewrite Qred_correct. reflexivity.
Qed.

Lemma mul_Fin (a b : Q) : mul (Fin a) (Fin b) = fin (a * b).
Proof. reflexivity. Qed.

Lemma div_Fin (a b : Q) : ~ b == 0 -> div (Fin a) (Fin b) = fin (a / b).
Proof.
  intros H. unfold div. destruct (Qeq_bool b 0) eqn:E; [|reflexivity].
  apply Qeq_bool_iff in E. contradiction.
Qed.

Lemma min_Fin (a b : Q) :
  JS.min (Fin a) (Fin b) = if Qlt_bool b a then Fin b else Fin a.
Proof. reflexivity. Qed.

Lemma max_Fin (a b : Q) :
  JS.max (Fin a) (Fin b) = if Qlt_bool a b then Fin b else Fin a.
Proof. reflexivity. Qed.

End JSFacts.

(** ** Facts about the orchestrator's formulas *)

Module Formula.
Import JSFacts.

Lemma move_opacity_Fin (M c : Q) :
  ~ M - 1 == 0 ->
  move_opacity (Fin M) (Fin c) = JS.min (fin ((4 # 5) * (c - 1) / (M - 1))) n08.
Proof.
  intros HM. unfold move_opacity.
  change n1 with (Fin 1). change n08 with (Fin (4 # 5)).
  rewrite !sub_Fin. unfold fin. rewrite mul_Fin. unfold fin. rewrite div_Fin.
  - unfold fin. match goal with
    | |- JS.min (Fin (Qred ?x)) _ = JS.min (Fin (Qred ?y)) _ =>
        rewrite (Qred_complete x y); [reflexivity|]
    end.
    rewrite !Qred_correct. reflexivity.
  - rewrite Qred_correct. exact HM.
Qed.

Lemma min_Fin_le (a b : Q) : a <= b -> JS.min (Fin a) (Fin b) = Fin a.
Proof.
  intros H. rewrite min_Fin.
  destruct (Qlt_bool b a) eqn:E; [|reflexivity].
  apply Qlt_bool_iff in E. exfalso. apply (Qlt_not_le _ _ E H).
Qed.

Lemma le_fin (a b : Q) : a <= b -> le (fin a) (fin b) = true.
Proof. intros H. unfold fin. apply le_Fin. now rewrite !Qred_correct. Qed.

(** [clamp] returns a finite value within the bounds for every input other
    than [NaN]. *)
Lemma clamp_bounds (s : num) (mn mx : Q) :
  s <> NaN -> mn <= mx ->
  le (Fin mn) (clamp s (Fin mn) (Fin mx)) = true /\
  le (clamp s (Fin mn) (Fin mx)) (Fin mx) = true.
Proof.
  intros Hs Hle. unfold clamp.
  destruct s as [q| | |]; [| | |contradiction].
  - rewrite max_Fin. destruct (Qlt_bool q mn) eqn:E1;
      rewrite min_Fin; [destruct (Qlt_bool mx mn) eqn:E2 | destruct (Qlt_bool mx q) eqn:E2];
      rewrite ?Qlt_bool_iff, ?Qlt_bool_false in E1, E2;
      split; apply le_Fin; lra.
  - change (JS.min (JS.max PInf (Fin mn)) (Fin mx)) with (Fin mx).
    split; apply le_Fin; lra.
  - change (JS.max NInf (Fin mn)) with (Fin mn).
    rewrite min_Fin_le by exact Hle. split; apply le_Fin; lra.
Qed.

End Formula.

(** ** C2: the orchestrator's opacity with [minScale = maxScale = 2] *)

(** The claimed value [0] for a raw scale factor [<= 1] is not what the
    move handler computes: the scale factor is first clamped up to
    [minScale = 2], and the opacity is [0.8]. *)
Lemma C2_opacity_at_scale_one : onTouchMove_opacity (fin 2) (fin 2) (fin 1) = n08 /\ n08 <> n0.
Proof. split; [vm_compute; reflexivity | discriminate]. Qed.

(** C2 (amended): with [minScale = maxScale = 2], the move handler's
    opacity is [0.8] for every raw scale factor that is not [NaN], whether
    above or below 1 and including the infinities. *)
Theorem C2_degenerate_bounds_opacity (s : num) :
  s <> NaN -> onTouchMove_opacity (fin 2) (fin 2) s = n08.
Proof.
  intros Hs. unfold onTouchMove_opacity, move_clampedScale.
  change (fin 2) with (Fin 2).
  destruct s as [q| | |]; [| reflexivity | reflexivity | contradiction].
  rewrite JSFacts.max_Fin. destruct (Qlt_bool q 2) eqn:E1; [reflexivity|cbv iota].
  rewrite JSFacts.min_Fin. destruct (Qlt_bool 2 q) eqn:E2; [reflexivity|cbv iota].
  apply JSFacts.Qlt_bool_false in E1, E2.
  rewrite Formula.move_opacity_Fin by (intros H; discriminate H).
  assert (Hq : q == 2) by lra.
  rewrite (JSFacts.fin_Qeq _ (4 # 5)); [reflexivity|].
  rewrite Hq. reflexivity.
Qed.

Lemma C2_degenerate_bounds_opacity_witness :
  fin (1 # 2) <> NaN /\ onTouchMove_opacity (fin 2) (fin 2) (fin (1 # 2)) = n08.
Proof.
  split; [discriminate|].
  apply (C2_degenerate_bounds_opacity (fin (1 # 2))). discriminate.
Defined.

(** ** C5: opacity ramp for [minScale = 1], [maxScale = 5] *)

(** C5: with [maxScale = 5], the opacity is [0] at clamped scale 1, [0.8]
    at clamped scale 5, non-decreasing on [[1, 5]] and never above [0.8]. *)
Theorem C5_opacity_ramp :
  move_opacity (fin 5) (fin 1) = n0 /\
  move_opacity (fin 5) (fin 5) = n08 /\
  (forall c1 c2 : Q, 1 <= c1 -> c1 <= c2 -> c2 <= 5 ->
     le (move_opacity (fin 5) (Fin c1)) (move_opacity (fin 5) (Fin c2)) = true) /\
  (forall c : Q, 1 <= c <= 5 -> le (move_opacity (fin 5) (Fin c)) n08 = true).
Proof.
  assert (Hval : forall c, 1 <= c <= 5 ->
            move_opacity (fin 5) (Fin c) = fin ((4 # 5) * (c - 1) / (5 - 1))).
  { intros c Hc. change (fin 5) with (Fin 5).
    rewrite Formula.move_opacity_Fin by (intros H; discriminate H).
    change n08 with (Fin (4 # 5)). unfold fin at 1.
    apply Formula.min_Fin_le. rewrite Qred_correct.
    assert (E : (4 # 5) * (c - 1) / (5 - 1) == (c - 1) * (1 # 5)) by field.
    rewrite E. lra. }
  assert (Hform : forall c, (4 # 5) * (c - 1) / (5 - 1) == (c - 1) * (1 # 5))
    by (intros; field).
  split; [vm_compute; reflexivity|].
  split; [vm_compute; reflexivity|].
  split.
  - intros c1 c2 H1 H12 H2. rewrite !Hval by lra.
    apply Formula.le_fin. rewrite !Hform. lra.
  - intros c Hc. rewrite Hval by lra. change n08 with (fin (4 # 5)).
    apply Formula.le_fin. rewrite Hform. lra.
Qed.

(** ** The Transform Driver's scale clamp *)

Module ZoomFacts.
Import Zoom.

Lemma applyTransform_currentScale (zc : ZoomController) (s tx ty : num) :
  zc_currentScale (snd (applyTransform zc s tx ty)) = clamp s (minScale zc) (maxScale zc).
Proof.
  unfold applyTransform, applyTransform_util, applyFallbackTransform; cbn.
  repeat match goal with |- context [if ?b then _ else _] => destruct b end;
    reflexivity.
Qed.

End ZoomFacts.

(** For finite bounds [minScale <= maxScale] and every input scale other
    than [NaN] (including the infinities and 0), after
    [applyTransform(s, translateX, translateY)] the reported scale lies in
    [[minScale, maxScale]]. *)
Lemma applyTransform_scale_in_bounds (zc : Zoom.ZoomController) (s tx ty : num)
  (mn mx : Q) :
  Zoom.minScale zc = Fin mn -> Zoom.maxScale zc = Fin mx -> mn <= mx -> s <> NaN ->
  le (Fin mn) (Zoom.ts_scale (Zoom.getTransformState (snd (Zoom.applyTransform zc s tx ty)))) = true /\
  le (Zoom.ts_scale (Zoom.getTransformState (snd (Zoom.applyTransform zc s tx ty)))) (Fin mx) = true.
Proof.
  intros Hmn Hmx Hle Hs. unfold Zoom.getTransformState. cbn [Zoom.ts_scale].
  rewrite ZoomFacts.applyTransform_currentScale, Hmn, Hmx.
  now apply Formula.clamp_bounds.
Qed.

(** ** C9: idempotent destroy *)

(** C9: [destroy()] of the Backdrop Driver and of the Transform Driver
    returns normally both times, and a second call leaves the state of the
    first. *)
Theorem C9_destroy_idempotent :
  (forall om : Overlay.OverlayManager,
     fst (Overlay.destroy om) = true /\
     fst (Overlay.destroy (snd (Overlay.destroy om))) = true /\
     snd (Overlay.destroy (snd (Overlay.destroy om))) = snd (Overlay.destroy om)) /\
  (forall zc : Zoom.ZoomController,
     fst (Zoom.destroy zc) = true /\
     fst (Zoom.destroy (snd (Zoom.destroy zc))) = true /\
     snd (Zoom.destroy (snd (Zoom.destroy zc))) = snd (Zoom.destroy zc)).
Proof.
  split.
  - intros [bg z [[d c zi [|]]|] vis ts]; repeat split.
  - intros [mn mx zi [|] w h sc tx ty [t wd ht z p tr]]; repeat split.
Qed.

(** ** C1: the fade-out race of the Backdrop Driver *)

(** C1: [updateOverlay(0)], then [updateOverlay(0.4)] before the grace
    timer fires: when the timer fires, the backdrop that was displayed at
    0.4 is hidden ([display: none], [isVisible = false]).  The timer tests
    the [clampedOpacity] it captured (always 0), not the current opacity. *)
Lemma C1_pending_hide_timer_hides_raised_overlay :
  let om0 := Overlay.OverlayManager_new "rgba(255, 255, 255, 0.8)" "1000" in
  let om1 := snd (Overlay.updateOverlay om0 (fin 0)) in
  let om2 := snd (Overlay.updateOverlay om1 (fin (2 # 5))) in
  Overlay.displayed om2 = Some "rgba(255, 255, 255, 0.4)"%string /\
  Overlay.isVisible om2 = true /\
  Overlay.displayed (Overlay.fireTimer om2) = None /\
  Overlay.isVisible (Overlay.fireTimer om2) = false.
Proof. vm_compute. repeat split. Qed.

(** C1, for every driver state and every second opacity: the timer
    scheduled by [updateOverlay(0)] hides the backdrop whatever
    [updateOverlay] call came in between. *)
Lemma C1_hide_timer_ignores_later_update (om : Overlay.OverlayManager) (op : num) :
  Overlay.timers om = [] ->
  let om2 := snd (Overlay.updateOverlay (snd (Overlay.updateOverlay om (fin 0))) op) in
  Overlay.displayed (Overlay.fireTimer om2) = None /\
  Overlay.isVisible (Overlay.fireTimer om2) = false.
Proof.
  intros Ht. destruct om as [bg z [el|] vis ts]; cbn in Ht; subst ts;
    unfold Overlay.updateOverlay;
    generalize (JS.max (fin 0) (JS.min (fin 1) op)); intros c;
    cbn; destruct c as [q| | |]; cbn; try destruct (Qlt_bool 0 q); cbn; auto.
Qed.

Lemma C1_hide_timer_ignores_later_update_witness :
  Overlay.timers (Overlay.OverlayManager_new "#ff0000" "1000") = [] /\
  Overlay.displayed (Overlay.fireTimer (snd (Overlay.updateOverlay
    (snd (Overlay.updateOverlay (Overlay.OverlayManager_new "#ff0000" "1000") (fin 0)))
    (fin (2 # 5))))) = None.
Proof.
  split; [reflexivity|].
  apply (C1_hide_timer_ignores_later_update (Overlay.OverlayManager_new "#ff0000" "1000")
           (fin (2 # 5))).
  reflexivity.
Defined.

(** ** Gesture Interpreter: C3, C7, C8 *)

Module TouchFacts.

Lemma Math_hypot_nonneg (dx dy : Q) : exists d, Math_hypot dx dy = Fin d /\ 0 <= d.
Proof.
  unfold Math_hypot, fin, Qsqrt_floor. eexists. split; [reflexivity|].
  rewrite Qred_correct.
  match goal with
  | |- 0 <= (?z # _) =>
      assert (Hz : (0 <= z)%Z) by apply Z.sqrt_nonneg;
      unfold Qle; cbn [Qnum Qden]; lia
  end.
Qed.

Lemma step_dist_inv (th : TouchHandler) (ev : input) :
  dist_inv th -> dist_inv (fst (fst (step th ev))).
Proof.
  intros Hinv. pose proof Hinv as [d [Hd Hd0]].
  destruct ev as [ts|ts|ts]; cbn;
    [ unfold handleTouchStart | unfold handleTouchMove | unfold handleTouchEnd ];
    destruct ts as [|p1 [|p2 [|p3 rest]]]; cbn; auto;
    try destruct (isActive th); cbn; auto;
    unfold dist_inv; cbn; eauto using Math_hypot_nonneg;
    exists 0; split; [reflexivity | apply Qle_refl].
Qed.

Lemma run_dist_inv (evs : list input) : forall th : TouchHandler,
  dist_inv th -> dist_inv (fst (run th evs)).
Proof.
  induction evs as [|ev evs IH]; intros th Hinv; cbn; [exact Hinv|].
  destruct (step th ev) as [[th1 out1] pd] eqn:E.
  destruct (run th1 evs) as [th2 out2] eqn:E2.
  cbn. change th2 with (fst (th2, out2)). rewrite <- E2. apply IH.
  change th1 with (fst (fst (th1, out1, pd))). rewrite <- E.
  now apply step_dist_inv.
Qed.

(** Two touches at the same point are at distance 0. *)
Lemma getDistance_self (p : point) : getDistance p p = fin 0.
Proof.
  unfold getDistance, Math_hypot, Qsqrt_floor.
  rewrite (Qred_complete _ 0) by ring. reflexivity.
Qed.

Lemma run_cons_fst (th : TouchHandler) (ev : input) (evs : list input) :
  fst (run th (ev :: evs)) = fst (run (fst (fst (step th ev))) evs).
Proof.
  cbn [run]. destruct (step th ev) as [[th1 o1] b]. cbn [fst].
  destruct (run th1 evs). reflexivity.
Qed.

Lemma run_app_fst (evs : list input) : forall (th : TouchHandler) (evs' : list input),
  fst (run th (evs ++ evs')) = fst (run (fst (run th evs)) evs').
Proof.
  induction evs as [|ev evs IH]; intros th evs'; [reflexivity|].
  cbn [app]. rewrite !run_cons_fst. apply IH.
Qed.

End TouchFacts.

(** A qualifying two-point start whose points coincide makes the
    interpreter active with [initialDistance = 0]. *)
Lemma C3_coincident_start_active_zero_distance :
  isActive (fst (run TouchHandler_new [EvStart [mkPoint 5 5; mkPoint 5 5]])) = true /\
  initialDistance (fst (run TouchHandler_new [EvStart [mkPoint 5 5; mkPoint 5 5]])) = fin 0 /\
  lt (fin 0) (initialDistance (fst (run TouchHandler_new [EvStart [mkPoint 5 5; mkPoint 5 5]]))) = false.
Proof. vm_compute. repeat split. Qed.

(** C3 (amended): for every event sequence from the constructed (Idle)
    state, whenever [isActive] is true, [initialDistance] is a finite
    number [>= 0]; and after any event sequence followed by a two-point
    start whose two points coincide, [isActive] is true and
    [initialDistance] is 0. *)
Theorem C3_active_initialDistance_nonneg (evs : list input) (p : point) :
  (isActive (fst (run TouchHandler_new evs)) = true ->
   exists d, initialDistance (fst (run TouchHandler_new evs)) = Fin d /\ 0 <= d) /\
  isActive (fst (run TouchHandler_new (evs ++ [EvStart [p; p]]))) = true /\
  initialDistance (fst (run TouchHandler_new (evs ++ [EvStart [p; p]]))) = fin 0.
Proof.
  split.
  - intros _. apply TouchFacts.run_dist_inv.
    exists 0. split; [reflexivity | apply Qle_refl].
  - rewrite TouchFacts.run_app_fst, TouchFacts.run_cons_fst.
    cbn [run fst step handleTouchStart isActive initialDistance].
    split; [reflexivity | apply TouchFacts.getDistance_self].
Qed.

Lemma C3_active_initialDistance_nonneg_witness :
  isActive (fst (run TouchHandler_new [EvStart [mkPoint 0 0; mkPoint 3 4]])) = true /\
  exists d, initialDistance (fst (run TouchHandler_new [EvStart [mkPoint 0 0; mkPoint 3 4]]))
            = Fin d /\ 0 <= d.
Proof.
  split; [reflexivity|].
  apply (proj1 (C3_active_initialDistance_nonneg [EvStart [mkPoint 0 0; mkPoint 3 4]]
                  (mkPoint 0 0))).
  reflexivity.
Defined.

(** C7: a touch list of length 1, of length greater than 2, or empty while
    the interpreter is not active, is ignored by all three handlers: same
    state, no callback, no [preventDefault]. *)
Theorem C7_arity_filter (th : TouchHandler) (ts : list point) :
  (List.length ts = 1%nat \/ (2 < List.length ts)%nat \/ (ts = [] /\ isActive th = false)) ->
  step th (EvStart ts) = (th, [], false) /\
  step th (EvMove ts) = (th, [], false) /\
  step th (EvEnd ts) = (th, [], false).
Proof.
  intros H. cbn. unfold handleTouchStart, handleTouchMove, handleTouchEnd.
  destruct ts as [|p1 [|p2 [|p3 rest]]]; cbn in H.
  - destruct H as [H|[H|[_ H]]]; [discriminate | lia | rewrite H; auto].
  - auto.
  - destruct H as [H|[H|[H _]]]; [discriminate | lia | discriminate].
  - auto.
Qed.

Lemma C7_arity_filter_witness :
  step TouchHandler_new (EvStart [mkPoint 1 2]) = (TouchHandler_new, [], false) /\
  step TouchHandler_new (EvMove [mkPoint 1 2]) = (TouchHandler_new, [], false) /\
  step TouchHandler_new (EvEnd [mkPoint 1 2]) = (TouchHandler_new, [], false).
Proof.
  apply (C7_arity_filter TouchHandler_new [mkPoint 1 2]). left. reflexivity.
Defined.

(** C8: a two-point start followed directly by an empty-list end emits
    [GestureStart] then exactly one [GestureEnd], and leaves
    [isActive = false], [initialDistance = 0], [currentScale = 1] and no
    touches (from any state, in particular from Idle). *)
Theorem C8_start_end_symmetry (th : TouchHandler) (p1 p2 : point) :
  run th [EvStart [p1; p2]; EvEnd []] =
  (mkTouchHandler false (fin 0) (fin 1) [],
   [GestureStart (getDistance p1 p2) (getMidpoint p1 p2) [p1; p2]; GestureEnd]).
Proof. reflexivity. Qed.

(** ** C10: scale bounds of a sanitized configuration *)

Module OptionsFacts.
Import Options.

Lemma gt_le_range (m : num) (a b : Q) :
  gt m (Fin a) = true -> le m (Fin b) = true -> exists q, m = Fin q /\ a < q /\ q <= b.
Proof.
  destruct m as [q| | |]; cbn; try discriminate.
  intros H1 H2. exists q. split; [reflexivity|]. split.
  - now apply JSFacts.Qlt_bool_iff.
  - now apply JSFacts.le_Fin.
Qed.

Lemma ge_le_range (m : num) (a b : Q) :
  ge m (Fin a) = true -> le m (Fin b) = true -> exists q, m = Fin q /\ a <= q /\ q <= b.
Proof.
  unfold ge. destruct m as [q| | |]; cbn; try discriminate.
  intros H1 H2. exists q. split; [reflexivity|].
  split; now apply JSFacts.le_Fin.
Qed.

Section Range.
Variable StringToNumber : string -> num.

Lemma check_maxScale_range (v : jsval) (dflt : Q) :
  1 < dflt -> dflt <= 10 ->
  exists q, fst (check_maxScale StringToNumber v (Fin dflt)) = Fin q /\ 1 < q /\ q <= 10.
Proof.
  intros H1 H2. unfold check_maxScale.
  destruct (is_undefined v); [exists dflt; auto|].
  match goal with |- context [if ?c then _ else _] => destruct c eqn:E end;
    [|exists dflt; auto].
  apply andb_true_iff in E as [E E3]. apply andb_true_iff in E as [_ E2].
  cbn [fst]. now apply gt_le_range.
Qed.

Lemma check_minScale_range (v : jsval) (dflt : Q) :
  (1 # 10) <= dflt -> dflt <= 1 ->
  exists q, fst (check_minScale StringToNumber v (Fin dflt)) = Fin q /\ (1 # 10) <= q /\ q <= 1.
Proof.
  intros H1 H2. unfold check_minScale.
  destruct (is_undefined v); [exists dflt; auto|].
  match goal with |- context [if ?c then _ else _] => destruct c eqn:E end;
    [|exists dflt; auto].
  apply andb_true_iff in E as [E E3]. apply andb_true_iff in E as [_ E2].
  cbn [fst]. now apply ge_le_range.
Qed.

(** Sanitizing against defaults within the bounds keeps the bounds: this
    covers the constructor ([DEFAULT_OPTIONS]) and [updateOptions] (the
    current options as defaults). *)
Lemma validate_scale_range (opts : options_arg) (defaults : Config) :
  scale_range defaults ->
  scale_range (fst (validateAndSanitizeOptions StringToNumber opts defaults)).
Proof.
  intros (dmn & dmx & Hmn & Hmx & H1 & H2 & H3 & H4).
  destruct opts as [o|v]; [|cbn; exists dmn, dmx; auto 7].
  cbn [validateAndSanitizeOptions].
  destruct (check_backgroundColor (o_backgroundColor o) (backgroundColor defaults)) as [bg e1].
  destruct (check_maxScale StringToNumber (o_maxScale o) (maxScale defaults)) as [mx e2] eqn:Emx.
  destruct (check_minScale StringToNumber (o_minScale o) (minScale defaults)) as [mn e3] eqn:Emn.
  destruct (check_transitionDuration (o_transitionDuration o) (transitionDuration defaults))
    as [td e4].
  destruct (check_zIndex StringToNumber (o_zIndex o) (zIndex defaults)) as [zi e5].
  destruct (check_maxScale_range (o_maxScale o) dmx H3 H4) as (qx & Eqx & Hx1 & Hx2).
  destruct (check_minScale_range (o_minScale o) dmn H1 H2) as (qn & Eqn & Hn1 & Hn2).
  rewrite <- Hmx, Emx in Eqx. rewrite <- Hmn, Emn in Eqn. cbn in Eqx, Eqn. subst mx mn.
  destruct (ge (Fin qn) (Fin qx)) eqn:Ege.
  - exfalso. unfold ge in Ege. apply JSFacts.le_Fin in Ege. lra.
  - cbn. exists qn, qx. auto 7.
Qed.

End Range.

End OptionsFacts.

(** C10: every options argument, sanitized against the library defaults,
    gives [0.1 <= minScale <= 1 < maxScale <= 10]; so [minScale < maxScale]
    and [maxScale - 1] is a non-zero finite number (the divisor of the
    opacity formula). *)
Theorem C10_sanitized_scale_bounds (StringToNumber : string -> num)
  (opts : Options.options_arg) :
  exists mn mx,
    Options.minScale (fst (Options.validateAndSanitizeOptions StringToNumber opts
                             Options.DEFAULT_OPTIONS)) = Fin mn /\
    Options.maxScale (fst (Options.validateAndSanitizeOptions StringToNumber opts
                             Options.DEFAULT_OPTIONS)) = Fin mx /\
    (1 # 10) <= mn /\ mn <= 1 /\ 1 < mx /\ mx <= 10 /\ mn < mx /\
    exists d, sub (Options.maxScale (fst (Options.validateAndSanitizeOptions StringToNumber opts
                                            Options.DEFAULT_OPTIONS))) n1 = Fin d /\ 0 < d.
Proof.
  destruct (OptionsFacts.validate_scale_range StringToNumber opts Options.DEFAULT_OPTIONS)
    as (mn & mx & Emn & Emx & H1 & H2 & H3 & H4).
  { exists 1, 5. repeat split; cbn; lra. }
  exists mn, mx. repeat split; auto; [lra|].
  rewrite Emx. change n1 with (Fin 1). rewrite JSFacts.sub_Fin.
  eexists. split; [reflexivity|]. rewrite Qred_correct. lra.
Qed.

(** ** C4: scale clamp of the Transform Driver *)

(** C4: [applyTransform] with a [NaN] scale stores [NaN] for every
    controller, and [NaN] is neither [>= minScale] nor [<= maxScale]
    whatever the bounds.  The orchestrator produces that input: from any
    instance state, a two-point start and a two-point move whose points
    all coincide make the scale factor [0 / 0], and the element's scale
    becomes [NaN]. *)
Theorem C4_nan_scale_escapes_bounds (S : string -> num) (pz : PinchZoom.PZ) (p : point) :
  (forall (zc : Zoom.ZoomController) (tx ty : num),
     Zoom.ts_scale (Zoom.getTransformState (snd (Zoom.applyTransform zc NaN tx ty))) = NaN /\
     le (Zoom.minScale zc) NaN = false /\ le NaN (Zoom.maxScale zc) = false) /\
  Zoom.ts_scale (Zoom.getTransformState (PinchZoom.zoomController
    (PinchZoom.pz_run S pz
       [PinchZoom.Touch (EvStart [p; p]); PinchZoom.Touch (EvMove [p; p])]))) = NaN.
Proof.
  split.
  - intros zc tx ty. unfold Zoom.getTransformState. cbn [Zoom.ts_scale].
    rewrite ZoomFacts.applyTransform_currentScale.
    split; [reflexivity|].
    split; destruct (Zoom.minScale zc), (Zoom.maxScale zc); reflexivity.
  - cbn [PinchZoom.pz_run PinchZoom.pz_step step handleTouchStart handleTouchMove
      fold_left PinchZoom.dispatch PinchZoom.onTouchStart PinchZoom.set_parts
      PinchZoom.touchHandler PinchZoom.options PinchZoom.zoomController
      PinchZoom.overlayManager PinchZoom.transitionTimers isActive initialDistance].
    rewrite TouchFacts.getDistance_self. change (div (fin 0) (fin 0)) with NaN.
    unfold PinchZoom.onTouchMove, PinchZoom.set_parts. cbv zeta.
    cbn [PinchZoom.zoomController]. unfold Zoom.getTransformState. cbn [Zoom.ts_scale].
    rewrite ZoomFacts.applyTransform_currentScale. reflexivity.
Qed.

Lemma C4_nan_scale_escapes_bounds_witness :
  Zoom.ts_scale (Zoom.getTransformState (PinchZoom.zoomController
    (PinchZoom.pz_run (fun _ => NaN)
       (PinchZoom.instance_new Options.DEFAULT_OPTIONS true (fin 100) (fin 100)
          (Zoom.mkStyle "" "" "" "" "" ""))
       [PinchZoom.Touch (EvStart [mkPoint 0 0; mkPoint 0 0]);
        PinchZoom.Touch (EvMove [mkPoint 0 0; mkPoint 0 0])]))) = NaN /\
  le (fin 1) NaN = false.
Proof.
  split; [|reflexivity].
  apply (proj2 (C4_nan_scale_escapes_bounds (fun _ => NaN)
    (PinchZoom.instance_new Options.DEFAULT_OPTIONS true (fin 100) (fin 100)
       (Zoom.mkStyle "" "" "" "" "" "")) (mkPoint 0 0))).
Defined.

(** ** C6: color mapping of the Backdrop Driver *)

Module ColorFacts.
Import Overlay.
Local Open Scope string_scope.

Lemma rgba_at_not_r (ch : ascii) (s : string) : ch <> "r"%char -> rgba_at (String ch s) = None.
Proof.
  intros H. destruct ch as [b0 b1 b2 b3 b4 b5 b6 b7].
  destruct b0, b1, b2, b3, b4, b5, b6, b7; try reflexivity.
  exfalso. now apply H.
Qed.

(** The unanchored rgb/rgba pattern finds nothing in a text without [r]. *)
Lemma rgba_search_no_r (s : string) :
  (forall ch, In ch (list_ascii_of_string s) -> ch <> "r"%char) -> rgba_search s = None.
Proof.
  induction s as [|ch s IH]; intros H; [reflexivity|].
  cbn [rgba_search]. rewrite rgba_at_not_r by (apply H; now left).
  apply IH. intros c Hc. apply H. now right.
Qed.

Lemma hex_not_r (ch : ascii) : hex_val ch <> None -> ch <> "r"%char.
Proof. intros H E. subst ch. now apply H. Qed.

Lemma span_app (p : ascii -> bool) (r rest : string) :
  forallb p (list_ascii_of_string r) = true ->
  match rest with String c _ => p c = false | EmptyString => True end ->
  span p (r ++ rest) = (r, rest).
Proof.
  intros Hr Hrest. induction r as [|c r IH]; cbn [append list_ascii_of_string forallb] in *.
  - destruct rest as [|c rest]; [reflexivity|]. cbn. now rewrite Hrest.
  - apply andb_true_iff in Hr as [Hc Hr]. cbn. rewrite Hc. rewrite (IH Hr). reflexivity.
Qed.

Lemma span1_app (p : ascii -> bool) (r rest : string) :
  r <> "" -> forallb p (list_ascii_of_string r) = true ->
  match rest with String c _ => p c = false | EmptyString => True end ->
  span1 p (r ++ rest) = Some (r, rest).
Proof.
  intros Hne Hr Hrest. unfold span1. rewrite span_app by assumption.
  destruct r; [contradiction | reflexivity].
Qed.

Lemma digit_not_space (c : ascii) : is_digit c = true -> is_space c = false.
Proof.
  unfold is_digit, is_space. intros H. apply andb_true_iff in H as [H1 H2].
  apply Nat.leb_le in H1, H2.
  apply orb_false_iff. split; [apply Nat.eqb_neq; lia|].
  apply andb_false_iff. right. apply Nat.leb_gt. lia.
Qed.

(** [span is_space] on [" " ++ t] where [t] starts with a digit *)
Lemma skip_space (t : string) :
  t <> "" -> forallb is_digit (list_ascii_of_string t) = true ->
  forall rest, snd (span is_space (String " " (t ++ rest))) = (t ++ rest).
Proof.
  intros Hne Ht rest. destruct t as [|c t]; [contradiction|].
  cbn in Ht. apply andb_true_iff in Ht as [Hc _].
  cbn. rewrite (digit_not_space c Hc). reflexivity.
Qed.

Lemma skip_space_dd (t : string) :
  t <> "" -> forallb is_digit_or_dot (list_ascii_of_string t) = true ->
  forall rest, snd (span is_space (String " " (t ++ rest))) = (t ++ rest).
Proof.
  intros Hne Ht rest. destruct t as [|c t]; [contradiction|].
  cbn in Ht. apply andb_true_iff in Ht as [Hc _].
  cbn. unfold is_digit_or_dot in Hc.
  destruct (is_digit c) eqn:Ed.
  - rewrite (digit_not_space c Ed). reflexivity.
  - cbn in Hc. apply Ascii.eqb_eq in Hc. subst c. reflexivity.
Qed.

Lemma str_app_assoc (a b c : string) : (a ++ b) ++ c = a ++ (b ++ c).
Proof. induction a as [|ch a IH]; cbn; [reflexivity | now rewrite IH]. Qed.

(** A match of the pattern begins with [rgb]. *)
Lemma rgba_at_some_rgb (t : string) :
  rgba_at t <> None -> exists t', t = String "r" (String "g" (String "b" t')).
Proof.
  intros H. destruct t as [|c1 t]; [exfalso; apply H; reflexivity|].
  destruct c1 as [[] [] [] [] [] [] [] []]; try (exfalso; apply H; reflexivity).
  destruct t as [|c2 t]; [exfalso; apply H; reflexivity|].
  destruct c2 as [[] [] [] [] [] [] [] []]; try (exfalso; apply H; reflexivity).
  destruct t as [|c3 t]; [exfalso; apply H; reflexivity|].
  destruct c3 as [[] [] [] [] [] [] [] []]; try (exfalso; apply H; reflexivity).
  eexists. reflexivity.
Qed.

(** Before a text starting with [rg], the search passes over a prefix
    without [rgb]. *)
Lemma rgba_search_skip (pre t : string) :
  has_rgb pre = false ->
  rgba_search (pre ++ String "r" (String "g" t)) = rgba_search (String "r" (String "g" t)).
Proof.
  induction pre as [|c pre IH]; intros H; [reflexivity|].
  cbn [has_rgb] in H. apply orb_false_iff in H as [Hp H].
  cbn [append rgba_search].
  destruct (rgba_at (String c (pre ++ String "r" (String "g" t)))) as [m|] eqn:E.
  - exfalso. destruct (rgba_at_some_rgb (String c (pre ++ String "r" (String "g" t))))
      as [t' Et]; [congruence|].
    injection Et as Ec Et. subst c.
    destruct pre as [|c2 pre]; cbn [append] in Et; [inversion Et|].
    injection Et as Ec2 Et. subst c2.
    destruct pre as [|c3 pre]; cbn [append] in Et; [inversion Et|].
    injection Et as Ec3 Et. subst c3. destruct pre; vm_compute in Hp; discriminate Hp.
  - now apply IH.
Qed.

Lemma rgba_search_at (s : string) (m : string * string * string) :
  rgba_at s = Some m -> rgba_search s = Some m.
Proof. intros H. destruct s; cbn [rgba_search]; rewrite H; reflexivity. Qed.

(** The pattern matches an [rgba(r, g, b, x)] text whatever follows it. *)
Lemma rgba_at_text_app (r g b x post : string) :
  r <> "" -> g <> "" -> b <> "" -> x <> "" ->
  forallb is_digit (list_ascii_of_string r) = true ->
  forallb is_digit (list_ascii_of_string g) = true ->
  forallb is_digit (list_ascii_of_string b) = true ->
  forallb is_digit_or_dot (list_ascii_of_string x) = true ->
  rgba_at (rgba_text r g b x ++ post) = Some (r, g, b).
Proof.
  intros Hr Hg Hb Hx Dr Dg Db Dx.
  unfold rgba_text. rewrite !str_app_assoc. cbn [append].
  unfold rgba_at. cbn [expect Ascii.eqb Bool.eqb andb].
  rewrite span1_app by (try assumption; reflexivity).
  cbn [expect Ascii.eqb Bool.eqb andb].
  rewrite (skip_space g Hg Dg).
  rewrite span1_app by (try assumption; reflexivity).
  cbn [expect Ascii.eqb Bool.eqb andb].
  rewrite (skip_space b Hb Db).
  rewrite span1_app by (try assumption; reflexivity).
  cbn [expect Ascii.eqb Bool.eqb andb].
  rewrite (skip_space_dd x Hx Dx).
  rewrite span1_app by (try assumption; reflexivity).
  reflexivity.
Qed.

Lemma rgba_text_rg (r g b x post : string) :
  exists t, rgba_text r g b x ++ post = String "r" (String "g" t).
Proof. eexists. reflexivity. Qed.

End ColorFacts.

(** C6: the rgb/rgba pattern is not anchored, so a literal that is neither
    an rgb/rgba color nor a hex color but contains an [rgba(r, g, b, x)]
    text, as a gradient does, does not get the default color: it takes its
    channels from the first such text.  For every prefix without the text
    [rgb] and every suffix, with [r], [g], [b] non-empty digit strings and
    [x] a non-empty string of digits and dots, the result is
    [rgba(r, g, b, opacity)]. *)
Theorem C6_embedded_rgba_overrides_default (pre post r g b x : string) (opacity : num) :
  Overlay.has_rgb pre = false ->
  r <> ""%string -> g <> ""%string -> b <> ""%string -> x <> ""%string ->
  forallb Overlay.is_digit (list_ascii_of_string r) = true ->
  forallb Overlay.is_digit (list_ascii_of_string g) = true ->
  forallb Overlay.is_digit (list_ascii_of_string b) = true ->
  forallb Overlay.is_digit_or_dot (list_ascii_of_string x) = true ->
  Overlay.parseBackgroundColor (pre ++ Overlay.rgba_text r g b x ++ post) opacity
  = Overlay.rgba_text r g b (num_to_string opacity).
Proof.
  intros Hpre Hr Hg Hb Hx Dr Dg Db Dx.
  unfold Overlay.parseBackgroundColor.
  destruct (ColorFacts.rgba_text_rg r g b x post) as [t Et].
  rewrite Et, (ColorFacts.rgba_search_skip pre t Hpre), <- Et.
  rewrite (ColorFacts.rgba_search_at _ (r, g, b)); [reflexivity|].
  now apply ColorFacts.rgba_at_text_app.
Qed.

Lemma C6_embedded_rgba_overrides_default_witness :
  Overlay.parseBackgroundColor
    ("linear-gradient(" ++ Overlay.rgba_text "1" "2" "3" "1" ++ ", red)") (fin (1 # 2))
  = Overlay.rgba_text "1" "2" "3" (num_to_string (fin (1 # 2))) /\
  Overlay.rgba_text "1" "2" "3" (num_to_string (fin (1 # 2)))
  <> "rgba(255, 255, 255, 0.5)"%string.
Proof.
  split; [|vm_compute; discriminate].
  apply (C6_embedded_rgba_overrides_default "linear-gradient(" ", red)" "1" "2" "3" "1"
           (fin (1 # 2))); try reflexivity; discriminate.
Defined.

(** * Further properties of the code *)

(** ** utils.js getDistance / getMidpoint and the touch handler *)

Module GeometryFacts.

Lemma Math_hypot_Qeq (dx dy ex ey : Q) :
  dx * dx + dy * dy == ex * ex + ey * ey -> Math_hypot dx dy = Math_hypot ex ey.
Proof.
  intros H. unfold Math_hypot, Qsqrt_floor. now rewrite (Qred_complete _ _ H).
Qed.

Lemma Qplus_comm_eq (a b : Q) : a + b = b + a.
Proof.
  destruct a as [an ad], b as [bn bd]. unfold Qplus; cbn.
  now rewrite Z.add_comm, Pos.mul_comm.
Qed.

Lemma getDistance_sym (p1 p2 : point) : getDistance p1 p2 = getDistance p2 p1.
Proof. unfold getDistance. apply Math_hypot_Qeq. ring. Qed.

Lemma getMidpoint_sym (p1 p2 : point) : getMidpoint p1 p2 = getMidpoint p2 p1.
Proof. unfold getMidpoint. now rewrite (Qplus_comm_eq (clientX p1)), (Qplus_comm_eq (clientY p1)). Qed.

Lemma getDistance_shift (p1 p2 : point) (a b : Q) :
  getDistance (mkPoint (clientX p1 + a) (clientY p1 + b)) (mkPoint (clientX p2 + a) (clientY p2 + b))
  = getDistance p1 p2.
Proof. unfold getDistance. apply Math_hypot_Qeq. cbn. ring. Qed.

End GeometryFacts.

(** The distance the touch handler measures does not depend on the order of
    the two touches, nor on a translation of both: a two-point start gives
    the same [initialDistance] and midpoint with the touches swapped, and a
    move gives the same scale factor with the touches swapped or both
    shifted by the same offset. *)
Theorem touch_distance_order_and_pan_invariant (th : TouchHandler) (p1 p2 : point) (a b : Q) :
  initialDistance (fst (fst (handleTouchStart th [p1; p2])))
    = initialDistance (fst (fst (handleTouchStart th [p2; p1]))) /\
  snd (fst (handleTouchStart th [p1; p2]))
    = [GestureStart (getDistance p2 p1) (getMidpoint p2 p1) [p1; p2]] /\
  currentScale (fst (fst (handleTouchMove th [p1; p2])))
    = currentScale (fst (fst (handleTouchMove th [p2; p1]))) /\
  currentScale (fst (fst (handleTouchMove th
      [mkPoint (clientX p1 + a) (clientY p1 + b); mkPoint (clientX p2 + a) (clientY p2 + b)])))
    = currentScale (fst (fst (handleTouchMove th [p1; p2]))).
Proof.
  unfold handleTouchStart, handleTouchMove; cbv beta iota zeta.
  split; [|split; [|split]]; cbn [fst snd currentScale initialDistance].
  - apply GeometryFacts.getDistance_sym.
  - now rewrite (GeometryFacts.getDistance_sym p1 p2), (GeometryFacts.getMidpoint_sym p1 p2).
  - destruct (isActive th); [|reflexivity]. cbn [fst snd currentScale].
    now rewrite (GeometryFacts.getDistance_sym p1 p2).
  - destruct (isActive th); [|reflexivity]. cbn [fst snd currentScale].
    now rewrite GeometryFacts.getDistance_shift.
Qed.

(** ** zoom-controller.js calculateScale *)

(** [calculateScale] on finite distances and finite bounds [min <= max]:
    it returns exactly 1 when the initial distance is 0, and otherwise a
    value within [[min, max]]; it is never [NaN]. *)
Theorem calculateScale_in_bounds (zc : Zoom.ZoomController) (mn mx d0 d1 : Q) :
  Zoom.minScale zc = Fin mn -> Zoom.maxScale zc = Fin mx -> mn <= mx ->
  (d0 == 0 -> Zoom.calculateScale zc (Fin d0) (Fin d1) = fin 1) /\
  (~ d0 == 0 ->
     le (Fin mn) (Zoom.calculateScale zc (Fin d0) (Fin d1)) = true /\
     le (Zoom.calculateScale zc (Fin d0) (Fin d1)) (Fin mx) = true) /\
  Zoom.calculateScale zc (Fin d0) (Fin d1) <> NaN.
Proof.
  intros Hmn Hmx Hle. unfold Zoom.calculateScale.
  change (eqb (Fin d0) (fin 0)) with (Qeq_bool d0 0).
  destruct (Qeq_bool d0 0) eqn:E.
  - apply Qeq_bool_iff in E.
    split; [intros _; reflexivity|]. split; [intros Hn; contradiction | discriminate].
  - assert (Hne : ~ d0 == 0) by (intros H; apply Qeq_bool_iff in H; congruence).
    rewrite JSFacts.div_Fin by exact Hne. rewrite Hmn, Hmx.
    destruct (Formula.clamp_bounds (fin (d1 / d0)) mn mx) as [H1 H2];
      [discriminate | exact Hle |].
    split; [intros Hz; contradiction|]. split; [intros _; split; assumption|].
    intros Hn. rewrite Hn in H1. discriminate H1.
Qed.

Lemma calculateScale_in_bounds_witness :
  Zoom.minScale Zoom.sample_controller = Fin 1 /\
  Zoom.calculateScale Zoom.sample_controller (Fin 0) (Fin 7) = fin 1 /\
  le (Zoom.calculateScale Zoom.sample_controller (Fin 10) (Fin 70)) (Fin 5) = true.
Proof.
  split; [reflexivity|].
  destruct (calculateScale_in_bounds Zoom.sample_controller 1 5 0 7) as [H0 _];
    [reflexivity | reflexivity | lra |].
  destruct (calculateScale_in_bounds Zoom.sample_controller 1 5 10 70) as [_ [H1 _]];
    [reflexivity | reflexivity | lra |].
  split; [apply H0; reflexivity|].
  apply H1. intros H. discriminate H.
Defined.

(** ** touch-handler.js handleTouchMove: the scale factor *)

(** A two-point move while active, from an [initialDistance] [d >= 0]:
    for [d > 0] the scale factor is the finite ratio [currentDistance / d];
    for [d = 0] it is [Infinity] when the touches are apart and [NaN]
    when they coincide.  [isActive] and [initialDistance] are kept. *)
Theorem handleTouchMove_scaleFactor (th : TouchHandler) (p1 p2 : point) (d : Q) :
  isActive th = true -> initialDistance th = Fin d -> 0 <= d ->
  isActive (fst (fst (handleTouchMove th [p1; p2]))) = true /\
  initialDistance (fst (fst (handleTouchMove th [p1; p2]))) = Fin d /\
  (0 < d -> exists c, getDistance p1 p2 = Fin c /\ 0 <= c /\
     currentScale (fst (fst (handleTouchMove th [p1; p2]))) = fin (c / d)) /\
  (d == 0 -> currentScale (fst (fst (handleTouchMove th [p1; p2])))
             = if eqb (getDistance p1 p2) (fin 0) then NaN else PInf).
Proof.
  intros Ha Hd Hd0. unfold handleTouchMove; cbv beta iota zeta. rewrite Ha.
  cbn [fst snd currentScale initialDistance isActive]. rewrite Hd.
  destruct (TouchFacts.Math_hypot_nonneg (clientX p2 - clientX p1) (clientY p2 - clientY p1))
    as (c & Ec & Hc).
  change (Math_hypot (clientX p2 - clientX p1) (clientY p2 - clientY p1))
    with (getDistance p1 p2) in Ec.
  rewrite Ec. split; [reflexivity|]. split; [reflexivity|]. split.
  - intros Hpos. exists c. split; [reflexivity|]. split; [exact Hc|].
    apply JSFacts.div_Fin. intros Hz. rewrite Hz in Hpos. apply (Qlt_irrefl 0 Hpos).
  - intros Hz. unfold div. replace (Qeq_bool d 0) with true by (symmetry; now apply Qeq_bool_iff).
    change (eqb (Fin c) (fin 0)) with (Qeq_bool c 0).
    destruct (Qeq_bool c 0) eqn:Ecz.
    + apply Qeq_bool_iff in Ecz. unfold sgn. now rewrite (proj1 (Qeq_alt c 0) Ecz).
    + assert (Hgt : 0 < c).
      { apply Qle_lt_or_eq in Hc as [Hc|Hc]; [exact Hc|].
        exfalso. assert (Hq : c == 0) by (rewrite <- Hc; reflexivity).
        apply Qeq_bool_iff in Hq. congruence. }
      unfold sgn. now rewrite (proj1 (Qgt_alt c 0) Hgt).
Qed.

Lemma handleTouchMove_scaleFactor_witness :
  let th := fst (run TouchHandler_new [EvStart [mkPoint 0 0; mkPoint 0 0]]) in
  isActive th = true /\ initialDistance th = Fin 0 /\
  currentScale (fst (fst (handleTouchMove th [mkPoint 0 0; mkPoint 3 4]))) = PInf.
Proof.
  cbv zeta. split; [reflexivity|]. split; [reflexivity|].
  destruct (handleTouchMove_scaleFactor
              (fst (run TouchHandler_new [EvStart [mkPoint 0 0; mkPoint 0 0]]))
              (mkPoint 0 0) (mkPoint 3 4) 0) as (_ & _ & _ & H);
    [reflexivity | reflexivity | apply Qle_refl |].
  rewrite H by reflexivity. reflexivity.
Defined.

Module TouchScaleFacts.

(** the values a scale factor can take *)
Definition scale_ok (x : num) : Prop :=
  x = PInf \/ x = NaN \/ exists q, x = Fin q /\ 0 <= q.

Lemma div_nonneg_ok (c d : Q) : 0 <= c -> 0 <= d -> scale_ok (div (Fin c) (Fin d)).
Proof.
  intros Hc Hd. unfold div. destruct (Qeq_bool d 0) eqn:E.
  - unfold sgn. destruct (Qcompare c 0) eqn:Ec; cbn.
    + right; left; reflexivity.
    + exfalso. apply Qlt_alt in Ec. lra.
    + left; reflexivity.
  - right; right. eexists; split; [reflexivity|]. rewrite Qred_correct.
    assert (Hd' : ~ d == 0) by (intros H; apply Qeq_bool_iff in H; congruence).
    apply Qle_shift_div_l; [lra|]. lra.
Qed.

Lemma step_inv (th : TouchHandler) (ev : input) :
  dist_inv th -> scale_ok (currentScale th) ->
  scale_ok (currentScale (fst (fst (step th ev)))).
Proof.
  intros (d & Hd & Hd0) Hs.
  destruct ev as [ts|ts|ts]; cbn;
    [ unfold handleTouchStart | unfold handleTouchMove | unfold handleTouchEnd ];
    destruct ts as [|p1 [|p2 [|p3 rest]]]; cbn [fst snd currentScale]; auto;
    try (destruct (isActive th); cbn [fst snd currentScale]; auto).
  - rewrite Hd.
    destruct (TouchFacts.Math_hypot_nonneg (clientX p2 - clientX p1) (clientY p2 - clientY p1))
      as (c & Ec & Hc).
    unfold getDistance. rewrite Ec. now apply div_nonneg_ok.
  - right; right. exists 1. split; [reflexivity|]. lra.
Qed.

Lemma run_inv (evs : list input) : forall th : TouchHandler,
  dist_inv th -> scale_ok (currentScale th) -> scale_ok (currentScale (fst (run th evs))).
Proof.
  induction evs as [|ev evs IH]; intros th Hd Hs; cbn; [exact Hs|].
  destruct (step th ev) as [[th1 out1] pd] eqn:E.
  destruct (run th1 evs) as [th2 out2] eqn:E2.
  cbn. change th2 with (fst (th2, out2)). rewrite <- E2. apply IH.
  - change th1 with (fst (fst (th1, out1, pd))). rewrite <- E. now apply TouchFacts.step_dist_inv.
  - change th1 with (fst (fst (th1, out1, pd))). rewrite <- E. now apply step_inv.
Qed.

End TouchScaleFacts.

(** For every event sequence from the constructed handler, [currentScale]
    is [Infinity], [NaN] or a finite number [>= 0]: never negative and
    never [-Infinity]. *)
Theorem touch_currentScale_never_negative (evs : list input) :
  currentScale (fst (run TouchHandler_new evs)) = PInf \/
  currentScale (fst (run TouchHandler_new evs)) = NaN \/
  exists q, currentScale (fst (run TouchHandler_new evs)) = Fin q /\ 0 <= q.
Proof.
  apply TouchScaleFacts.run_inv.
  - exists 0. split; [reflexivity | apply Qle_refl].
  - right; right. exists 1. split; [reflexivity|]. lra.
Qed.

(** ** zoom-controller.js: a zoom and its release leave no trace *)

(** Zooming with [applyTransform] (any scale and translation), releasing
    with [resetTransform] and receiving the [transitionend] event leaves
    the controller and its element's style exactly as releasing an
    unzoomed controller does. *)
Theorem zoom_release_leaves_no_trace (zc : Zoom.ZoomController) (s tx ty : num) :
  Zoom.handleTransitionEnd (snd (Zoom.resetTransform (snd (Zoom.applyTransform zc s tx ty))))
  = Zoom.handleTransitionEnd (snd (Zoom.resetTransform zc)).
Proof.
  destruct zc as [mn mx zi [|] w h sc x y [t wd ht z p tr]];
    unfold Zoom.applyTransform, Zoom.applyFallbackTransform, Zoom.applyTransform_util;
    cbn [Zoom.transformSupported Zoom.set_scale Zoom.style Zoom.originalWidth Zoom.originalHeight];
    generalize (clamp s mn mx); intros c;
    repeat match goal with |- context [if ?b then _ else _] =>
      match b with
      | eqb _ _ => fail 1
      | _ => destruct b
      end
    end; reflexivity.
Qed.

(** ** overlay-manager.js *)

Module OverlayFacts.
Import Overlay.

Lemma clamp_opacity_one (op : num) :
  le (fin 1) op = true -> JS.max (fin 0) (JS.min (fin 1) op) = JS.max (fin 0) (JS.min (fin 1) (fin 1)).
Proof.
  intros H. change (fin 1) with (Fin 1) in *.
  destruct op as [q| | |]; try discriminate; [|reflexivity].
  apply JSFacts.le_Fin in H. rewrite JSFacts.min_Fin.
  destruct (Qlt_bool q 1) eqn:E; [|reflexivity].
  apply JSFacts.Qlt_bool_iff in E. lra.
Qed.

Lemma clamp_opacity_zero (op : num) :
  le op (fin 0) = true -> JS.max (fin 0) (JS.min (fin 1) op) = JS.max (fin 0) (JS.min (fin 1) (fin 0)).
Proof.
  intros H. change (fin 1) with (Fin 1) in *. change (fin 0) with (Fin 0) in *.
  destruct op as [q| | |]; try discriminate; [|reflexivity].
  apply JSFacts.le_Fin in H. rewrite JSFacts.min_Fin.
  destruct (Qlt_bool q 1) eqn:E.
  - rewrite JSFacts.max_Fin. destruct (Qlt_bool 0 q) eqn:E2; [|reflexivity].
    apply JSFacts.Qlt_bool_iff in E2. lra.
  - apply JSFacts.Qlt_bool_false in E. lra.
Qed.

(** A hide closure keeps the timers and the existence of the overlay. *)
Lemma hideTimerBody_timers (om : OverlayManager) (c : num) :
  timers (hideTimerBody om c) = timers om.
Proof. unfold hideTimerBody. destruct (overlay om); [destruct (eqb c (fin 0))|]; reflexivity. Qed.

Lemma hideTimerBody_some (om : OverlayManager) (c : num) (el : OverlayEl) :
  overlay om = Some el -> exists el', overlay (hideTimerBody om c) = Some el'.
Proof.
  intros H. unfold hideTimerBody. rewrite H.
  destruct (eqb c (fin 0)); cbn; [eauto | rewrite H; eauto].
Qed.

(** Firing every timer of a queue that ends with a captured 0, while an
    overlay exists, hides it. *)
Lemma fire_until_zero (ts : list num) : forall om el,
  overlay om = Some el -> timers om = (ts ++ [fin 0])%list ->
  exists el', overlay (fireTimers (S (List.length ts)) om) = Some el' /\
    ov_display el' = "none"%string /\
    isVisible (fireTimers (S (List.length ts)) om) = false /\
    timers (fireTimers (S (List.length ts)) om) = [].
Proof.
  induction ts as [|t ts IH]; intros om el Hel Hts.
  - cbn. unfold fireTimer. rewrite Hts. unfold hideTimerBody. cbn. rewrite Hel.
    change (eqb (fin 0) (fin 0)) with true. cbn. eauto.
  - change (fireTimers (S (List.length (t :: ts))) om)
      with (fireTimers (S (List.length ts)) (fireTimer om)).
    assert (Hf : fireTimer om
                 = hideTimerBody (set_overlay om (overlay om) (isVisible om) (ts ++ [fin 0])) t)
      by (unfold fireTimer; now rewrite Hts).
    rewrite Hf.
    destruct (hideTimerBody_some (set_overlay om (overlay om) (isVisible om) (ts ++ [fin 0])) t el)
      as [el' Hel']; [exact Hel|].
    eapply IH; [exact Hel'|]. rewrite hideTimerBody_timers. reflexivity.
Qed.

(** After [updateOverlay(0)], once every pending timer has fired, the
    overlay exists, is not displayed and no timer is left. *)
Lemma updateOverlay_zero_flush (om : OverlayManager) :
  exists el, overlay (flushTimers (snd (updateOverlay om (fin 0)))) = Some el /\
    ov_display el = "none"%string /\
    isVisible (flushTimers (snd (updateOverlay om (fin 0)))) = false /\
    timers (flushTimers (snd (updateOverlay om (fin 0)))) = [].
Proof.
  assert (Hc : JS.max (fin 0) (JS.min (fin 1) (fin 0)) = fin 0) by reflexivity.
  destruct (updateOverlay om (fin 0)) as [b om'] eqn:E.
  assert (Hx : exists el, overlay om' = Some el /\ timers om' = (timers om ++ [fin 0])%list).
  { unfold updateOverlay in E. rewrite Hc in E.
    destruct (overlay om) as [el|] eqn:Eo.
    - rewrite Eo in E. change (gt (fin 0) (fin 0)) with false in E. cbn in E.
      injection E as <- <-. cbn. eauto.
    - unfold createOverlay in E. rewrite Eo in E. cbn in E.
      change (gt (fin 0) (fin 0)) with false in E. cbn in E.
      injection E as <- <-. cbn. eauto. }
  destruct Hx as (el & Hel & Hts). cbn [snd]. unfold flushTimers.
  rewrite Hts, length_app. cbn [List.length]. rewrite Nat.add_1_r.
  exact (fire_until_zero (timers om) om' el Hel Hts).
Qed.

(** The reachable states: the visibility flag mirrors the element's
    display, and every element is attached. *)
Definition inv (om : OverlayManager) : Prop :=
  match overlay om with
  | None => isVisible om = false
  | Some el =>
      ov_attached el = true /\
      ((ov_display el = "block"%string /\ isVisible om = true) \/
       (ov_display el = "none"%string /\ isVisible om = false))
  end.

Lemma createOverlay_inv (om : OverlayManager) : inv om -> inv (createOverlay om).
Proof.
  intros H. unfold createOverlay. destruct (overlay om) eqn:E; [exact H|].
  unfold inv in *. rewrite E in H. cbn. auto.
Qed.

Lemma updateOverlay_inv (om : OverlayManager) (op : num) :
  inv om -> inv (snd (updateOverlay om op)).
Proof.
  intros H. apply createOverlay_inv in H as H'.
  unfold updateOverlay. cbv zeta.
  generalize (JS.max (fin 0) (JS.min (fin 1) op)); intros c.
  generalize (gt c (fin 0)); intros g.
  destruct (overlay om) as [el0|] eqn:Eo.
  - unfold inv in H. rewrite Eo in H. cbn. rewrite Eo.
    destruct g; cbn; unfold inv; cbn; intuition auto.
  - unfold createOverlay in H' |- *. rewrite Eo in H' |- *. cbn.
    destruct g; cbn; unfold inv; cbn;
      unfold inv in H'; cbn in H'; intuition auto.
Qed.

Lemma fireTimer_inv (om : OverlayManager) : inv om -> inv (fireTimer om).
Proof.
  unfold fireTimer. destruct (timers om) as [|c rest]; [auto|].
  unfold hideTimerBody, inv. cbn. destruct (overlay om) as [el|]; [|auto].
  destruct (eqb c (fin 0)); cbn; intuition auto.
Qed.

Lemma removeOverlay_inv (om : OverlayManager) : inv om -> inv (snd (removeOverlay om)).
Proof.
  intros H. unfold removeOverlay. destruct (overlay om) as [el|] eqn:E; [|exact H].
  destruct (ov_attached el); [reflexivity | exact H].
Qed.

Lemma updateOptions_inv (om : OverlayManager) (bg : string) (z : num) :
  inv om -> inv (updateOptions om bg z).
Proof.
  intros H. unfold updateOptions. unfold inv in *.
  destruct (overlay om) as [el|] eqn:E; cbn; [|exact H].
  destruct (Zoom.truthy z); cbn; exact H.
Qed.

Lemma run_ops_inv (os : list op) : forall om, inv om -> inv (run_ops om os).
Proof.
  induction os as [|o os IH]; intros om H; [exact H|]. cbn. apply IH.
  destruct o; cbn.
  - now apply createOverlay_inv.
  - now apply updateOverlay_inv.
  - now apply fireTimer_inv.
  - now apply removeOverlay_inv.
  - now apply updateOptions_inv.
Qed.

Lemma new_inv (bg z : string) : inv (OverlayManager_new bg z).
Proof. reflexivity. Qed.

Lemma fireTimers_none (n : nat) : forall om,
  overlay om = None -> overlay (fireTimers n om) = None /\ isVisible (fireTimers n om) = isVisible om.
Proof.
  induction n as [|n IH]; intros om H; [auto|]. cbn.
  destruct (IH (fireTimer om)) as [H1 H2].
  - unfold fireTimer. destruct (timers om); [exact H|]. unfold hideTimerBody. cbn. now rewrite H.
  - rewrite H1, H2. split; [reflexivity|].
    unfold fireTimer. destruct (timers om); [reflexivity|]. unfold hideTimerBody. cbn. now rewrite H.
Qed.

End OverlayFacts.

(** [updateOverlay] clamps its argument to [[0, 1]]: every opacity [>= 1]
    (including [Infinity]) acts as 1, and every opacity [<= 0] (including
    [-Infinity]) acts as 0. *)
Theorem updateOverlay_clamps_opacity (om : Overlay.OverlayManager) (op : num) :
  (le (fin 1) op = true -> Overlay.updateOverlay om op = Overlay.updateOverlay om (fin 1)) /\
  (le op (fin 0) = true -> Overlay.updateOverlay om op = Overlay.updateOverlay om (fin 0)).
Proof.
  split; intros H; unfold Overlay.updateOverlay.
  - now rewrite (OverlayFacts.clamp_opacity_one op H).
  - now rewrite (OverlayFacts.clamp_opacity_zero op H).
Qed.

Lemma updateOverlay_clamps_opacity_witness :
  le (fin 1) PInf = true /\
  Overlay.updateOverlay (Overlay.OverlayManager_new "#000" "999") PInf
    = Overlay.updateOverlay (Overlay.OverlayManager_new "#000" "999") (fin 1).
Proof.
  split; [reflexivity|].
  apply (proj1 (updateOverlay_clamps_opacity (Overlay.OverlayManager_new "#000" "999") PInf)).
  reflexivity.
Defined.

(** [updateOverlay(NaN)] makes a displayed backdrop transparent but never
    hides it: the captured [clampedOpacity] is [NaN], which the hide
    closure's [=== 0] test rejects; after every timer has fired (none was
    pending before) the element is still displayed, transparent, and
    [isVisible] is still true. *)
Theorem updateOverlay_nan_never_hides (om : Overlay.OverlayManager) (bg : string) :
  Overlay.timers om = [] -> Overlay.displayed om = Some bg -> Overlay.isVisible om = true ->
  Overlay.displayed (Overlay.flushTimers (snd (Overlay.updateOverlay om NaN)))
    = Some "rgba(255, 255, 255, 0)"%string /\
  Overlay.isVisible (Overlay.flushTimers (snd (Overlay.updateOverlay om NaN))) = true.
Proof.
  intros Ht Hd Hv. destruct om as [obg z [el|] vis ts]; cbn in Ht, Hd, Hv; [|discriminate].
  subst ts vis. unfold Overlay.displayed in Hd.
  destruct (String.eqb (Overlay.ov_display el) "none") eqn:E; [discriminate|].
  cbn. rewrite E. auto.
Qed.

Lemma updateOverlay_nan_never_hides_witness :
  let om := snd (Overlay.updateOverlay (Overlay.OverlayManager_new "#000" "999") (fin (1 # 2))) in
  Overlay.timers om = [] /\ Overlay.displayed om = Some "rgba(0, 0, 0, 0.5)"%string /\
  Overlay.isVisible om = true /\
  Overlay.isVisible (Overlay.flushTimers (snd (Overlay.updateOverlay om NaN))) = true.
Proof.
  cbv zeta. split; [reflexivity|]. split; [vm_compute; reflexivity|]. split; [reflexivity|].
  apply (updateOverlay_nan_never_hides
           (snd (Overlay.updateOverlay (Overlay.OverlayManager_new "#000" "999") (fin (1 # 2))))
           "rgba(0, 0, 0, 0.5)"%string); [reflexivity | vm_compute; reflexivity | reflexivity].
Defined.

(** For every sequence of operations on a constructed manager
    ([createOverlay], [updateOverlay], timers firing, [removeOverlay],
    [updateOptions]), [isVisible] is true exactly when the overlay element
    exists and is displayed. *)
Theorem overlay_isVisible_iff_displayed (bg z : string) (os : list Overlay.op) :
  Overlay.isVisible (Overlay.run_ops (Overlay.OverlayManager_new bg z) os) = true <->
  Overlay.displayed (Overlay.run_ops (Overlay.OverlayManager_new bg z) os) <> None.
Proof.
  pose proof (OverlayFacts.run_ops_inv os _ (OverlayFacts.new_inv bg z)) as H.
  revert H. generalize (Overlay.run_ops (Overlay.OverlayManager_new bg z) os).
  intros om. unfold OverlayFacts.inv, Overlay.displayed.
  destruct (Overlay.overlay om) as [el|].
  - intros [_ [[Hd Hv]|[Hd Hv]]]; rewrite Hd, Hv; cbn; split; congruence.
  - intros Hv. rewrite Hv. split; congruence.
Qed.

(** Whatever timers were pending, [updateOverlay(0)] followed by the firing
    of every pending timer leaves the backdrop hidden ([display: none],
    [isVisible] false) with no timer left. *)
Theorem updateOverlay_zero_then_timers_hide (om : Overlay.OverlayManager) :
  Overlay.displayed (Overlay.flushTimers (snd (Overlay.updateOverlay om (fin 0)))) = None /\
  Overlay.isVisible (Overlay.flushTimers (snd (Overlay.updateOverlay om (fin 0)))) = false /\
  Overlay.timers (Overlay.flushTimers (snd (Overlay.updateOverlay om (fin 0)))) = [].
Proof.
  destruct (OverlayFacts.updateOverlay_zero_flush om) as (el & Hel & Hd & Hv & Ht).
  unfold Overlay.displayed. rewrite Hel, Hd. auto.
Qed.

(** After [destroy()] of a manager reached by any operations, there is no
    overlay and [isVisible] is false, the pending timers change neither
    when they fire, and a later [updateOverlay] with a positive clamped
    opacity creates a new element and displays it with the configured
    color. *)
Theorem overlay_destroy_then_reuse (bg z : string) (os : list Overlay.op) (op : num) :
  gt (JS.max (fin 0) (JS.min (fin 1) op)) (fin 0) = true ->
  let om := snd (Overlay.destroy (Overlay.run_ops (Overlay.OverlayManager_new bg z) os)) in
  Overlay.overlay om = None /\ Overlay.isVisible om = false /\
  Overlay.overlay (Overlay.flushTimers om) = None /\
  Overlay.isVisible (Overlay.flushTimers om) = false /\
  Overlay.displayed (snd (Overlay.updateOverlay om op))
    = Some (Overlay.parseBackgroundColor (Overlay.optBackgroundColor om)
              (JS.max (fin 0) (JS.min (fin 1) op))) /\
  Overlay.isVisible (snd (Overlay.updateOverlay om op)) = true.
Proof.
  intros Hop. cbv zeta.
  pose proof (OverlayFacts.run_ops_inv os _ (OverlayFacts.new_inv bg z)) as H.
  revert H. generalize (Overlay.run_ops (Overlay.OverlayManager_new bg z) os).
  intros om0 Hinv.
  assert (Hd : Overlay.overlay (snd (Overlay.destroy om0)) = None /\
               Overlay.isVisible (snd (Overlay.destroy om0)) = false).
  { unfold Overlay.destroy, Overlay.removeOverlay. unfold OverlayFacts.inv in Hinv.
    destruct (Overlay.overlay om0) as [el|] eqn:E.
    - destruct Hinv as [Ha _]. rewrite Ha. auto.
    - auto. }
  destruct Hd as [Hn Hv].
  destruct (OverlayFacts.fireTimers_none (List.length (Overlay.timers (snd (Overlay.destroy om0))))
              _ Hn) as [Hn' Hv'].
  unfold Overlay.flushTimers. rewrite Hn', Hv', Hv, Hn.
  do 4 (split; [reflexivity|]).
  unfold Overlay.updateOverlay, Overlay.createOverlay. cbv zeta. rewrite Hn.
  revert Hop. generalize (gt (JS.max (fin 0) (JS.min (fin 1) op)) (fin 0)).
  intros g Hop. subst g. cbn. auto.
Qed.

Lemma overlay_destroy_then_reuse_witness :
  gt (JS.max (fin 0) (JS.min (fin 1) (fin (1 # 2)))) (fin 0) = true /\
  Overlay.isVisible (snd (Overlay.updateOverlay
    (snd (Overlay.destroy (Overlay.run_ops (Overlay.OverlayManager_new "#000" "999")
                              [Overlay.OpUpdate (fin (1 # 2))]))) (fin (1 # 2)))) = true.
Proof.
  split; [reflexivity|].
  apply (overlay_destroy_then_reuse "#000" "999" [Overlay.OpUpdate (fin (1 # 2))] (fin (1 # 2))).
  reflexivity.
Defined.

(** [updateOptions(newOptions)] takes effect on the next display: a later
    [updateOverlay] with a positive clamped opacity shows the new
    [backgroundColor]; an element created after the update carries the new
    [zIndex]. *)
Theorem overlay_updateOptions_next_display (om : Overlay.OverlayManager) (bg : string)
  (z op : num) :
  gt (JS.max (fin 0) (JS.min (fin 1) op)) (fin 0) = true ->
  Overlay.displayed (snd (Overlay.updateOverlay (Overlay.updateOptions om bg z) op))
    = Some (Overlay.parseBackgroundColor bg (JS.max (fin 0) (JS.min (fin 1) op))) /\
  (Overlay.overlay om = None ->
   exists el, Overlay.overlay (snd (Overlay.updateOverlay (Overlay.updateOptions om bg z) op))
                = Some el /\ Overlay.ov_zIndex el = num_to_string z).
Proof.
  intros Hop. unfold Overlay.updateOverlay, Overlay.updateOptions, Overlay.createOverlay.
  cbv zeta. revert Hop. generalize (gt (JS.max (fin 0) (JS.min (fin 1) op)) (fin 0)).
  intros g Hop. subst g.
  destruct (Overlay.overlay om) as [el|]; cbn.
  - destruct (Zoom.truthy z); cbn; split; [reflexivity | discriminate |
                                           reflexivity | discriminate].
  - split; [reflexivity|]. intros _. eauto.
Qed.

Lemma overlay_updateOptions_next_display_witness :
  gt (JS.max (fin 0) (JS.min (fin 1) (fin 1))) (fin 0) = true /\
  Overlay.displayed (snd (Overlay.updateOverlay
    (Overlay.updateOptions (Overlay.OverlayManager_new "#000" "999") "#fff" (fin 5)) (fin 1)))
    = Some (Overlay.parseBackgroundColor "#fff" (fin 1)).
Proof.
  split; [reflexivity|].
  apply (overlay_updateOptions_next_display (Overlay.OverlayManager_new "#000" "999") "#fff"
           (fin 5) (fin 1)).
  reflexivity.
Defined.

(** ** overlay-manager.js parseBackgroundColor *)



(** A three-digit hex color is read as its six-digit doubled form:
    [#abc] and [#aabbcc] give the same [rgba(...)] text at every opacity. *)
Theorem parseBackgroundColor_short_hex (a b c : ascii) (opacity : num) :
  Overlay.hex_val a <> None -> Overlay.hex_val b <> None -> Overlay.hex_val c <> None ->
  Overlay.parseBackgroundColor (String "#" (String a (String b (String c EmptyString)))) opacity
  = Overlay.parseBackgroundColor
      (String "#" (String a (String a (String b (String b (String c (String c EmptyString)))))))
      opacity.
Proof.
  intros Ha Hb Hc.
  apply ColorFacts.hex_not_r in Ha, Hb, Hc.
  unfold Overlay.parseBackgroundColor.
  rewrite !ColorFacts.rgba_search_no_r.
  - reflexivity.
  - intros ch Hin. cbn in Hin.
    repeat destruct Hin as [<-|Hin]; try assumption; [discriminate | contradiction].
  - intros ch Hin. cbn in Hin.
    repeat destruct Hin as [<-|Hin]; try assumption; [discriminate | contradiction].
Qed.

Lemma parseBackgroundColor_short_hex_witness :
  Overlay.hex_val "f"%char <> None /\
  Overlay.parseBackgroundColor "#f0a" (fin (1 # 2)) = Overlay.parseBackgroundColor "#ff00aa" (fin (1 # 2)).
Proof.
  split; [discriminate|].
  apply (parseBackgroundColor_short_hex "f"%char "0"%char "a"%char (fin (1 # 2)));
    discriminate.
Defined.

(** Parsing an [rgba(r, g, b, x)] text, as [updateOverlay] writes them,
    keeps its channels and replaces the alpha: [r], [g], [b] non-empty
    digit strings and [x] a non-empty string of digits and dots. *)
Theorem parseBackgroundColor_rgba_roundtrip (r g b x : string) (opacity : num) :
  r <> ""%string -> g <> ""%string -> b <> ""%string -> x <> ""%string ->
  forallb Overlay.is_digit (list_ascii_of_string r) = true ->
  forallb Overlay.is_digit (list_ascii_of_string g) = true ->
  forallb Overlay.is_digit (list_ascii_of_string b) = true ->
  forallb Overlay.is_digit_or_dot (list_ascii_of_string x) = true ->
  Overlay.parseBackgroundColor (Overlay.rgba_text r g b x) opacity
  = Overlay.rgba_text r g b (num_to_string opacity).
Proof.
  intros Hr Hg Hb Hx Dr Dg Db Dx.
  unfold Overlay.parseBackgroundColor, Overlay.rgba_text.
  cbn [Overlay.rgba_search append].
  unfold Overlay.rgba_at. cbn [Overlay.expect Ascii.eqb Bool.eqb andb].
  rewrite ColorFacts.span1_app by (try assumption; reflexivity).
  cbn [Overlay.expect Ascii.eqb Bool.eqb andb].
  rewrite (ColorFacts.skip_space g Hg Dg).
  rewrite ColorFacts.span1_app by (try assumption; reflexivity).
  cbn [Overlay.expect Ascii.eqb Bool.eqb andb].
  rewrite (ColorFacts.skip_space b Hb Db).
  rewrite ColorFacts.span1_app by (try assumption; reflexivity).
  cbn [Overlay.expect Ascii.eqb Bool.eqb andb].
  rewrite (ColorFacts.skip_space_dd x Hx Dx).
  rewrite ColorFacts.span1_app by (try assumption; reflexivity).
  reflexivity.
Qed.

Lemma parseBackgroundColor_rgba_roundtrip_witness :
  Overlay.parseBackgroundColor (Overlay.rgba_text "12" "0" "255" "0.8") (fin (1 # 4))
  = "rgba(12, 0, 255, 0.25)"%string.
Proof.
  rewrite (parseBackgroundColor_rgba_roundtrip "12" "0" "255" "0.8" (fin (1 # 4)));
    try discriminate; try reflexivity.
Defined.

(** ** utils.js validateAndSanitizeOptions *)

Module ValidateFacts.
Import Options.

Lemma check_errors_bg (v : jsval) (d : string) :
  ~ In ErrMinNotBelowMax (snd (check_backgroundColor v d)).
Proof.
  unfold check_backgroundColor. destruct (is_undefined v); [cbn; tauto|].
  destruct v; cbn; try (intros [H|H]; [discriminate | exact H]).
  destruct (negb _); cbn; [tauto|]. intros [H|H]; [discriminate | exact H].
Qed.

Lemma check_errors_td (v : jsval) (d : string) :
  ~ In ErrMinNotBelowMax (snd (check_transitionDuration v d)).
Proof.
  unfold check_transitionDuration. destruct (is_undefined v); [cbn; tauto|].
  destruct v; cbn; try (intros [H|H]; [discriminate | exact H]).
  destruct (is_duration _); cbn; [tauto|]. intros [H|H]; [discriminate | exact H].
Qed.

Lemma check_errors_num (f : jsval -> num -> num * list option_error) (e : option_error)
  (v : jsval) (d : num) :
  e <> ErrMinNotBelowMax -> (snd (f v d) = [] \/ snd (f v d) = [e]) ->
  ~ In ErrMinNotBelowMax (snd (f v d)).
Proof.
  intros He [H|H]; rewrite H; cbn; [tauto|]. intros [H'|H']; [congruence | exact H'].
Qed.

Section WithNumber.
Variable StringToNumber : string -> num.

Lemma check_maxScale_errors (v : jsval) (d : num) :
  snd (check_maxScale StringToNumber v d) = [] \/ snd (check_maxScale StringToNumber v d) = [ErrMaxScale].
Proof.
  unfold check_maxScale. destruct (is_undefined v); [now left|].
  destruct (_ && _ && _); [now left | now right].
Qed.

Lemma check_minScale_errors (v : jsval) (d : num) :
  snd (check_minScale StringToNumber v d) = [] \/ snd (check_minScale StringToNumber v d) = [ErrMinScale].
Proof.
  unfold check_minScale. destruct (is_undefined v); [now left|].
  destruct (_ && _ && _); [now left | now right].
Qed.

Lemma check_zIndex_errors (v : jsval) (d : num) :
  snd (check_zIndex StringToNumber v d) = [] \/ snd (check_zIndex StringToNumber v d) = [ErrZIndex].
Proof.
  unfold check_zIndex. destruct (is_undefined v); [now left|].
  destruct (_ && _ && _); [now left | now right].
Qed.

End WithNumber.

End ValidateFacts.

(** With defaults whose scale bounds lie in the library ranges
    ([0.1 <= minScale <= 1 < maxScale <= 10]), the final
    [minScale >= maxScale] correction never fires: its error is never
    reported, whatever the options. *)
Theorem validate_min_not_below_max_unreachable (StringToNumber : string -> num)
  (opts : Options.options_arg) (defaults : Options.Config) :
  Options.scale_range defaults ->
  ~ In Options.ErrMinNotBelowMax
      (snd (Options.validateAndSanitizeOptions StringToNumber opts defaults)).
Proof.
  intros (dmn & dmx & Hmn & Hmx & H1 & H2 & H3 & H4).
  destruct opts as [o|v]; [|cbn; intros [H|H]; [discriminate | exact H]].
  cbn [Options.validateAndSanitizeOptions].
  pose proof (ValidateFacts.check_errors_bg (Options.o_backgroundColor o)
                (Options.backgroundColor defaults)) as N1.
  pose proof (ValidateFacts.check_errors_num (Options.check_maxScale StringToNumber) Options.ErrMaxScale (Options.o_maxScale o) (Options.maxScale defaults)
                ltac:(discriminate)
                (ValidateFacts.check_maxScale_errors StringToNumber (Options.o_maxScale o)
                   (Options.maxScale defaults))) as N2.
  pose proof (ValidateFacts.check_errors_num (Options.check_minScale StringToNumber) Options.ErrMinScale (Options.o_minScale o) (Options.minScale defaults)
                ltac:(discriminate)
                (ValidateFacts.check_minScale_errors StringToNumber (Options.o_minScale o)
                   (Options.minScale defaults))) as N3.
  pose proof (ValidateFacts.check_errors_td (Options.o_transitionDuration o)
                (Options.transitionDuration defaults)) as N4.
  pose proof (ValidateFacts.check_errors_num (Options.check_zIndex StringToNumber) Options.ErrZIndex (Options.o_zIndex o) (Options.zIndex defaults)
                ltac:(discriminate)
                (ValidateFacts.check_zIndex_errors StringToNumber (Options.o_zIndex o)
                   (Options.zIndex defaults))) as N5.
  destruct (OptionsFacts.check_maxScale_range StringToNumber (Options.o_maxScale o) dmx H3 H4)
    as (qx & Eqx & Hx1 & Hx2).
  destruct (OptionsFacts.check_minScale_range StringToNumber (Options.o_minScale o) dmn H1 H2)
    as (qn & Eqn & Hn1 & Hn2).
  rewrite <- Hmx in Eqx. rewrite <- Hmn in Eqn.
  destruct (Options.check_backgroundColor (Options.o_backgroundColor o) (Options.backgroundColor defaults))
    as [bg e1].
  destruct (Options.check_maxScale StringToNumber (Options.o_maxScale o) (Options.maxScale defaults))
    as [mx e2].
  destruct (Options.check_minScale StringToNumber (Options.o_minScale o) (Options.minScale defaults))
    as [mn e3].
  destruct (Options.check_transitionDuration (Options.o_transitionDuration o)
              (Options.transitionDuration defaults)) as [td e4].
  destruct (Options.check_zIndex StringToNumber (Options.o_zIndex o) (Options.zIndex defaults))
    as [zi e5].
  cbn in Eqx, Eqn, N1, N2, N3, N4, N5. subst mx mn.
  destruct (ge (Fin qn) (Fin qx)) eqn:Ege.
  - exfalso. unfold ge in Ege. apply JSFacts.le_Fin in Ege. lra.
  - cbn. rewrite !in_app_iff. tauto.
Qed.

Lemma validate_min_not_below_max_unreachable_witness :
  Options.scale_range Options.DEFAULT_OPTIONS /\
  ~ In Options.ErrMinNotBelowMax
      (snd (Options.validateAndSanitizeOptions (fun _ => NaN)
              (Options.OptObject (Options.mkOptionsObj Options.JUndefined (Options.JNumber (fin 2))
                 (Options.JNumber (fin 3)) Options.JUndefined Options.JUndefined))
              Options.DEFAULT_OPTIONS)).
Proof.
  assert (H : Options.scale_range Options.DEFAULT_OPTIONS).
  { exists 1, 5. repeat split; cbn; lra. }
  split; [exact H|].
  exact (validate_min_not_below_max_unreachable (fun _ => NaN)
           (Options.OptObject (Options.mkOptionsObj Options.JUndefined (Options.JNumber (fin 2))
              (Options.JNumber (fin 3)) Options.JUndefined Options.JUndefined))
           Options.DEFAULT_OPTIONS H).
Defined.

(** An options object with no fields leaves the defaults and reports no
    error (for defaults with [minScale < maxScale]); a non-object reports
    only the "must be an object" error and returns the defaults. *)
Theorem validate_missing_fields_keep_defaults (StringToNumber : string -> num)
  (defaults : Options.Config) (v : Options.jsval) :
  ge (Options.minScale defaults) (Options.maxScale defaults) = false ->
  Options.validateAndSanitizeOptions StringToNumber
    (Options.OptObject (Options.mkOptionsObj Options.JUndefined Options.JUndefined
       Options.JUndefined Options.JUndefined Options.JUndefined)) defaults = (defaults, []) /\
  Options.validateAndSanitizeOptions StringToNumber (Options.OptOther v) defaults
    = (defaults, [Options.ErrNotObject]).
Proof.
  intros H. split; [|reflexivity].
  cbn. rewrite H. destruct defaults; reflexivity.
Qed.

Lemma validate_missing_fields_keep_defaults_witness :
  ge (Options.minScale Options.DEFAULT_OPTIONS) (Options.maxScale Options.DEFAULT_OPTIONS) = false /\
  Options.validateAndSanitizeOptions (fun _ => NaN)
    (Options.OptObject (Options.mkOptionsObj Options.JUndefined Options.JUndefined
       Options.JUndefined Options.JUndefined Options.JUndefined)) Options.DEFAULT_OPTIONS
  = (Options.DEFAULT_OPTIONS, []).
Proof.
  split; [reflexivity|].
  apply (validate_missing_fields_keep_defaults (fun _ => NaN) Options.DEFAULT_OPTIONS Options.JNull).
  reflexivity.
Defined.

(** A valid configuration passed back as an options object is accepted
    unchanged, with no error, whatever the defaults: sanitizing is
    idempotent on its own results. *)
Theorem validate_as_options_roundtrip (StringToNumber : string -> num)
  (c defaults : Options.Config) :
  Options.scale_range c ->
  Options.trim (Options.backgroundColor c) <> ""%string ->
  Options.is_duration (Options.trim (Options.transitionDuration c)) = true ->
  Options.isInteger (Options.zIndex c) = true ->
  ge (Options.zIndex c) (fin 0) = true ->
  Options.validateAndSanitizeOptions StringToNumber (Options.as_options c) defaults = (c, []).
Proof.
  intros (mn & mx & Hmn & Hmx & H1 & H2 & H3 & H4) Hbg Htd Hzi Hz0.
  destruct c as [bg cmx cmn td zi];
    cbn [Options.minScale Options.maxScale Options.backgroundColor Options.transitionDuration
         Options.zIndex] in Hmn, Hmx, Hbg, Htd, Hzi, Hz0.
  subst cmx cmn.
  unfold Options.as_options. cbn [Options.validateAndSanitizeOptions Options.o_backgroundColor
    Options.o_maxScale Options.o_minScale Options.o_transitionDuration Options.o_zIndex
    Options.backgroundColor Options.maxScale Options.minScale Options.transitionDuration
    Options.zIndex].
  assert (E1 : Options.check_backgroundColor (Options.JString bg) (Options.backgroundColor defaults)
               = (bg, [])).
  { unfold Options.check_backgroundColor, Options.is_undefined. cbv beta iota.
    destruct (String.eqb (Options.trim bg) "") eqn:E; [|reflexivity].
    apply String.eqb_eq in E. contradiction. }
  assert (E2 : Options.check_maxScale StringToNumber (Options.JNumber (Fin mx))
                 (Options.maxScale defaults) = (Fin mx, [])).
  { unfold Options.check_maxScale. cbn [Options.is_undefined Options.ToNumber isNaN negb andb].
    change (fin 1) with (Fin 1). change (fin 10) with (Fin 10).
    replace (gt (Fin mx) (Fin 1)) with true by (symmetry; now apply JSFacts.Qlt_bool_iff).
    replace (le (Fin mx) (Fin 10)) with true by (symmetry; now apply JSFacts.le_Fin).
    reflexivity. }
  assert (E3 : Options.check_minScale StringToNumber (Options.JNumber (Fin mn))
                 (Options.minScale defaults) = (Fin mn, [])).
  { unfold Options.check_minScale. cbn [Options.is_undefined Options.ToNumber isNaN negb andb].
    change (fin 1) with (Fin 1). change (fin (1 # 10)) with (Fin (1 # 10)).
    replace (ge (Fin mn) (Fin (1 # 10))) with true by (symmetry; now apply JSFacts.le_Fin).
    replace (le (Fin mn) (Fin 1)) with true by (symmetry; now apply JSFacts.le_Fin).
    reflexivity. }
  assert (E4 : Options.check_transitionDuration (Options.JString td)
                 (Options.transitionDuration defaults) = (td, [])).
  { unfold Options.check_transitionDuration, Options.is_undefined. cbv beta iota.
    now rewrite Htd. }
  assert (E5 : Options.check_zIndex StringToNumber (Options.JNumber zi)
                 (Options.zIndex defaults) = (zi, [])).
  { unfold Options.check_zIndex. cbn [Options.is_undefined Options.ToNumber].
    rewrite Hzi, Hz0. destruct zi; [reflexivity | discriminate | discriminate | discriminate]. }
  rewrite E1, E2, E3, E4, E5.
  replace (ge (Fin mn) (Fin mx)) with false.
  - reflexivity.
  - symmetry. unfold ge, le. cbn. rewrite orb_false_iff. split.
    + apply JSFacts.Qlt_bool_false. lra.
    + destruct (Qeq_bool mx mn) eqn:E; [|reflexivity]. apply Qeq_bool_iff in E. lra.
Qed.

Lemma validate_as_options_roundtrip_witness :
  Options.validateAndSanitizeOptions (fun _ => NaN) (Options.as_options Options.DEFAULT_OPTIONS)
    (Options.mkConfig "#000" (fin 2) (fin (1 # 2)) "1s" (fin 0))
  = (Options.DEFAULT_OPTIONS, []).
Proof.
  apply validate_as_options_roundtrip.
  - exists 1, 5. repeat split; cbn; lra.
  - vm_compute. discriminate.
  - vm_compute. reflexivity.
  - reflexivity.
  - reflexivity.
Defined.

(** ** rollup.config.js: PinchZoom *)

Module PZFacts.
Import PinchZoom.
Local Open Scope string_scope.

Lemma applyTransform_bounds (zc : Zoom.ZoomController) (s tx ty : num) :
  Zoom.minScale (snd (Zoom.applyTransform zc s tx ty)) = Zoom.minScale zc /\
  Zoom.maxScale (snd (Zoom.applyTransform zc s tx ty)) = Zoom.maxScale zc.
Proof.
  destruct zc as [mn mx zi [|] w h sc x y st];
    unfold Zoom.applyTransform, Zoom.applyTransform_util, Zoom.applyFallbackTransform; cbn;
    repeat match goal with |- context [if ?b then _ else _] => destruct b end;
    split; reflexivity.
Qed.

(** When [applyTransform] leaves the controller zoomed, the element is
    raised. *)
Lemma applyTransform_raises (zc : Zoom.ZoomController) (s tx ty : num) :
  gt (Zoom.zc_currentScale (snd (Zoom.applyTransform zc s tx ty))) (fin 1) = true ->
  Zoom.st_position (Zoom.style (snd (Zoom.applyTransform zc s tx ty))) = "relative" /\
  Zoom.st_zIndex (Zoom.style (snd (Zoom.applyTransform zc s tx ty))) <> "".
Proof.
  rewrite ZoomFacts.applyTransform_currentScale. intros H.
  unfold Zoom.applyTransform. cbv zeta. rewrite H. cbn.
  split; [reflexivity|].
  destruct (String.eqb _ "") eqn:E; [discriminate|].
  intros Hz. rewrite Hz in E. discriminate E.
Qed.

Lemma resetTransform_fields (zc : Zoom.ZoomController) :
  Zoom.minScale (snd (Zoom.resetTransform zc)) = Zoom.minScale zc /\
  Zoom.maxScale (snd (Zoom.resetTransform zc)) = Zoom.maxScale zc /\
  Zoom.zc_currentScale (snd (Zoom.resetTransform zc)) = fin 1.
Proof. destruct zc as [mn mx zi [|] w h sc x y st]; repeat split. Qed.

Lemma eqb_one_not_gt (x : num) : eqb x (fin 1) = true -> gt x (fin 1) = false.
Proof.
  change (fin 1) with (Fin 1). destruct x as [q| | |]; try discriminate.
  intros H. apply Qeq_bool_iff in H. apply JSFacts.Qlt_bool_false. rewrite H. apply Qle_refl.
Qed.

Lemma handleTransitionEnd_fields (zc : Zoom.ZoomController) :
  Zoom.minScale (Zoom.handleTransitionEnd zc) = Zoom.minScale zc /\
  Zoom.maxScale (Zoom.handleTransitionEnd zc) = Zoom.maxScale zc /\
  Zoom.zc_currentScale (Zoom.handleTransitionEnd zc) = Zoom.zc_currentScale zc /\
  (gt (Zoom.zc_currentScale zc) (fin 1) = true ->
   Zoom.style (Zoom.handleTransitionEnd zc) = Zoom.style zc).
Proof.
  unfold Zoom.handleTransitionEnd. destruct (eqb (Zoom.zc_currentScale zc) (fin 1)) eqn:E.
  - repeat split. intros H. rewrite eqb_one_not_gt in H by exact E. discriminate.
  - repeat split.
Qed.

Lemma zoom_updateOptions_fields (zc : Zoom.ZoomController) (mn mx : num) (z td : string) :
  Zoom.minScale (Zoom.updateOptions zc mn mx z td) = mn /\
  Zoom.maxScale (Zoom.updateOptions zc mn mx z td) = mx /\
  Zoom.zc_currentScale (Zoom.updateOptions zc mn mx z td) = Zoom.zc_currentScale zc /\
  Zoom.st_position (Zoom.style (Zoom.updateOptions zc mn mx z td)) = Zoom.st_position (Zoom.style zc) /\
  Zoom.st_zIndex (Zoom.style (Zoom.updateOptions zc mn mx z td)) = Zoom.st_zIndex (Zoom.style zc).
Proof.
  destruct zc as [mn0 mx0 zi [|] w h sc x y st]; unfold Zoom.updateOptions;
    destruct (String.eqb td ""); repeat split.
Qed.

(** The invariant of an instance. *)
Definition pz_inv (pz : PZ) : Prop :=
  Options.scale_range (options pz) /\
  Zoom.minScale (zoomController pz) = Options.minScale (options pz) /\
  Zoom.maxScale (zoomController pz) = Options.maxScale (options pz) /\
  (Zoom.zc_currentScale (zoomController pz) = NaN \/
   exists q, Zoom.zc_currentScale (zoomController pz) = Fin q /\ (1 # 10) <= q /\ q <= 10) /\
  (gt (Zoom.zc_currentScale (zoomController pz)) (fin 1) = true ->
   Zoom.st_position (Zoom.style (zoomController pz)) = "relative" /\
   Zoom.st_zIndex (Zoom.style (zoomController pz)) <> "").

Lemma inv_overlay_only (pz : PZ) (om : Overlay.OverlayManager) :
  pz_inv pz -> pz_inv (set_parts pz (zoomController pz) om).
Proof. intros H. exact H. Qed.

Lemma clamp_range (s : num) (mn mx : Q) :
  (1 # 10) <= mn -> mn <= mx -> mx <= 10 ->
  clamp s (Fin mn) (Fin mx) = NaN \/
  exists q, clamp s (Fin mn) (Fin mx) = Fin q /\ (1 # 10) <= q /\ q <= 10.
Proof.
  intros H1 H2 H3.
  assert (D : s = NaN \/ s <> NaN) by (destruct s; [right | right | right | left]; easy).
  destruct D as [->|Hs]; [left; reflexivity|].
  destruct (Formula.clamp_bounds s mn mx Hs H2) as [L U].
  right. destruct (clamp s (Fin mn) (Fin mx)) as [q| | |]; try discriminate.
  apply JSFacts.le_Fin in L, U. exists q. split; [reflexivity|]. split; lra.
Qed.

Lemma onTouchStart_inv (pz : PZ) : pz_inv pz -> pz_inv (onTouchStart pz).
Proof. intros H. exact H. Qed.

Lemma onTouchMove_inv (pz : PZ) (sf : num) : pz_inv pz -> pz_inv (onTouchMove pz sf).
Proof.
  intros (R & Emn & Emx & Sc & P).
  pose proof R as (mn & mx & Hmn & Hmx & H1 & H2 & H3 & H4).
  unfold pz_inv, onTouchMove, set_parts. cbv zeta. cbn [options zoomController].
  generalize (move_clampedScale (Options.minScale (options pz)) (Options.maxScale (options pz)) sf).
  intros cs.
  destruct (applyTransform_bounds (zoomController pz) cs (fin 0) (fin 0)) as [B1 B2].
  rewrite B1, B2. split; [exact R|]. split; [exact Emn|]. split; [exact Emx|]. split.
  - rewrite ZoomFacts.applyTransform_currentScale, Emn, Emx, Hmn, Hmx.
    apply clamp_range; lra.
  - apply applyTransform_raises.
Qed.

Lemma onTouchEnd_inv (pz : PZ) : pz_inv pz -> pz_inv (onTouchEnd pz).
Proof.
  intros (R & Emn & Emx & Sc & P).
  unfold pz_inv, onTouchEnd, set_parts. cbn [options zoomController].
  destruct (resetTransform_fields (zoomController pz)) as (B1 & B2 & B3).
  rewrite B1, B2, B3. split; [exact R|]. split; [exact Emn|]. split; [exact Emx|]. split.
  - right. exists 1. split; [reflexivity|]. split; lra.
  - intros H. discriminate H.
Qed.

Lemma dispatch_inv (pz : PZ) (e : gesture_event) : pz_inv pz -> pz_inv (dispatch pz e).
Proof.
  destruct e; cbn [dispatch].
  - apply onTouchStart_inv.
  - apply onTouchMove_inv.
  - apply onTouchEnd_inv.
Qed.

Lemma fold_dispatch_inv (es : list gesture_event) : forall pz,
  pz_inv pz -> pz_inv (fold_left dispatch es pz).
Proof.
  induction es as [|e es IH]; intros pz H; [exact H|]. cbn. apply IH. now apply dispatch_inv.
Qed.

Lemma pz_step_inv (S : string -> num) (pz : PZ) (ev : event) :
  pz_inv pz -> pz_inv (pz_step S pz ev).
Proof.
  intros H. destruct ev as [e| | | |o]; cbn [pz_step].
  - destruct (step (touchHandler pz) e) as [[th out] b]. apply fold_dispatch_inv. exact H.
  - destruct H as (R & Emn & Emx & Sc & P).
    unfold pz_inv, onTransitionEnd. cbn [options zoomController].
    destruct (handleTransitionEnd_fields (zoomController pz)) as (B1 & B2 & B3 & B4).
    rewrite B1, B2, B3. split; [exact R|]. split; [exact Emn|]. split; [exact Emx|].
    split; [exact Sc|]. intros G. rewrite (B4 G). exact (P G).
  - unfold fireTransitionTimer. destruct (transitionTimers pz); exact H.
  - exact H.
  - destruct o as [oo|v]; [|exact H].
    destruct H as (R & Emn & Emx & Sc & P).
    unfold pz_inv, updateOptions. cbn [options zoomController].
    destruct (zoom_updateOptions_fields (zoomController pz)
      (Options.minScale (fst (Options.validateAndSanitizeOptions S (Options.OptObject oo) (options pz))))
      (Options.maxScale (fst (Options.validateAndSanitizeOptions S (Options.OptObject oo) (options pz))))
      (zIndex_text (Options.zIndex (fst (Options.validateAndSanitizeOptions S (Options.OptObject oo)
                                           (options pz)))))
      (Options.transitionDuration (fst (Options.validateAndSanitizeOptions S (Options.OptObject oo)
                                          (options pz)))))
      as (B1 & B2 & B3 & B4 & B5).
    rewrite B1, B2, B3, B4, B5.
    split; [now apply OptionsFacts.validate_scale_range|].
    split; [reflexivity|]. split; [reflexivity|]. split; [exact Sc|]. exact P.
Qed.

Lemma pz_run_inv (S : string -> num) (evs : list event) : forall pz,
  pz_inv pz -> pz_inv (pz_run S pz evs).
Proof.
  induction evs as [|ev evs IH]; intros pz H; [exact H|]. cbn. apply IH. now apply pz_step_inv.
Qed.

Lemma instance_new_inv (c : Options.Config) (supported : bool) (w h : num) (st : Zoom.Style) :
  Options.scale_range c -> pz_inv (instance_new c supported w h st).
Proof.
  intros R. unfold pz_inv, instance_new. cbn [options zoomController].
  unfold Zoom.ZoomController_new. split; [exact R|].
  destruct supported; cbn; (split; [reflexivity|]); (split; [reflexivity|]);
    (split; [right; exists 1; split; [reflexivity | split; lra] | intros G; discriminate G]).
Qed.

(** A move's overlay update, by the sign of the clamped opacity. *)
Lemma updateOverlay_positive (om : Overlay.OverlayManager) (o : num) :
  gt (JS.max (fin 0) (JS.min (fin 1) o)) (fin 0) = true ->
  Overlay.displayed (snd (Overlay.updateOverlay om o))
    = Some (Overlay.parseBackgroundColor (Overlay.optBackgroundColor om)
              (JS.max (fin 0) (JS.min (fin 1) o))) /\
  Overlay.isVisible (snd (Overlay.updateOverlay om o)) = true.
Proof.
  intros Hop. unfold Overlay.updateOverlay, Overlay.createOverlay. cbv zeta.
  revert Hop. generalize (gt (JS.max (fin 0) (JS.min (fin 1) o)) (fin 0)).
  intros g Hop. subst g.
  destruct (Overlay.overlay om) as [el|] eqn:E; cbn; [rewrite E|]; cbn; auto.
Qed.

Lemma updateOverlay_nonpositive (om : Overlay.OverlayManager) (o : num) :
  gt (JS.max (fin 0) (JS.min (fin 1) o)) (fin 0) = false ->
  exists el, Overlay.overlay (snd (Overlay.updateOverlay om o)) = Some el /\
    Overlay.ov_backgroundColor el = "rgba(255, 255, 255, 0)" /\
    Overlay.timers (snd (Overlay.updateOverlay om o))
      = (Overlay.timers om ++ [JS.max (fin 0) (JS.min (fin 1) o)])%list.
Proof.
  intros Hop. unfold Overlay.updateOverlay, Overlay.createOverlay. cbv zeta.
  revert Hop. generalize (gt (JS.max (fin 0) (JS.min (fin 1) o)) (fin 0)).
  intros g Hop. subst g.
  destruct (Overlay.overlay om) as [el|] eqn:E; cbn; [rewrite E|]; cbn; eauto.
Qed.

Lemma clampop_pos (q : Q) : 0 < q -> q < 1 -> JS.max (fin 0) (JS.min (fin 1) (Fin q)) = Fin q.
Proof.
  intros H1 H2. change (fin 1) with (Fin 1). change (fin 0) with (Fin 0).
  rewrite JSFacts.min_Fin. replace (Qlt_bool q 1) with true by (symmetry; now apply JSFacts.Qlt_bool_iff).
  rewrite JSFacts.max_Fin. replace (Qlt_bool 0 q) with true by (symmetry; now apply JSFacts.Qlt_bool_iff).
  reflexivity.
Qed.

Lemma clampop_nonpos (q : Q) : q <= 0 -> JS.max (fin 0) (JS.min (fin 1) (Fin q)) = fin 0.
Proof.
  intros H. change (fin 1) with (Fin 1). change (fin 0) with (Fin 0).
  rewrite JSFacts.min_Fin. replace (Qlt_bool q 1) with true
    by (symmetry; apply JSFacts.Qlt_bool_iff; lra).
  rewrite JSFacts.max_Fin. replace (Qlt_bool 0 q) with false
    by (symmetry; now apply JSFacts.Qlt_bool_false).
  reflexivity.
Qed.

End PZFacts.

(** ** The orchestrator: what an instance keeps *)

(** Between the events of an instance (touches, transition ends and their
    timers, overlay timers, option updates), the validated options keep
    [0.1 <= minScale <= 1 < maxScale <= 10], and the controller's bounds
    are always the options' bounds: [updateOptions] hands the new bounds to
    the controller. *)
Theorem instance_bounds_follow_options (S : string -> num) (c : Options.Config)
  (supported : bool) (w h : num) (st : Zoom.Style) (evs : list PinchZoom.event) :
  Options.scale_range c ->
  let pz := PinchZoom.pz_run S (PinchZoom.instance_new c supported w h st) evs in
  Options.scale_range (PinchZoom.options pz) /\
  Zoom.minScale (PinchZoom.zoomController pz) = Options.minScale (PinchZoom.options pz) /\
  Zoom.maxScale (PinchZoom.zoomController pz) = Options.maxScale (PinchZoom.options pz).
Proof.
  intros Hc. cbv zeta.
  destruct (PZFacts.pz_run_inv S evs _ (PZFacts.instance_new_inv c supported w h st Hc))
    as (R & Emn & Emx & _ & _).
  auto.
Qed.

Lemma instance_bounds_follow_options_witness :
  Options.scale_range Options.DEFAULT_OPTIONS /\
  let pz := PinchZoom.pz_run (fun _ => NaN)
              (PinchZoom.instance_new Options.DEFAULT_OPTIONS true (fin 100) (fin 100)
                 (Zoom.mkStyle "" "" "" "" "" "")) [] in
  Options.scale_range (PinchZoom.options pz) /\
  Zoom.minScale (PinchZoom.zoomController pz) = Options.minScale (PinchZoom.options pz) /\
  Zoom.maxScale (PinchZoom.zoomController pz) = Options.maxScale (PinchZoom.options pz).
Proof.
  assert (R : Options.scale_range Options.DEFAULT_OPTIONS)
    by (exists 1, 5; repeat split; cbn; lra).
  split; [exact R|].
  apply (instance_bounds_follow_options (fun _ => NaN) Options.DEFAULT_OPTIONS true (fin 100)
           (fin 100) (Zoom.mkStyle "" "" "" "" "" "") []).
  exact R.
Defined.

(** Between the events of an instance the element's scale is [NaN] or a
    number in [0.1, 10] (it is not re-clamped when [updateOptions] narrows
    the bounds), and whenever it is zoomed (scale above 1) its style has
    position "relative" and a non-empty z-index. *)
Theorem instance_scale_and_stacking (S : string -> num) (c : Options.Config)
  (supported : bool) (w h : num) (st : Zoom.Style) (evs : list PinchZoom.event) :
  Options.scale_range c ->
  let zc := PinchZoom.zoomController
              (PinchZoom.pz_run S (PinchZoom.instance_new c supported w h st) evs) in
  (Zoom.zc_currentScale zc = NaN \/
   exists q, Zoom.zc_currentScale zc = Fin q /\ (1 # 10) <= q /\ q <= 10) /\
  (Zoom.ts_isZoomed (Zoom.getTransformState zc) = true ->
   Zoom.st_position (Zoom.style zc) = "relative"%string /\
   Zoom.st_zIndex (Zoom.style zc) <> ""%string).
Proof.
  intros Hc. cbv zeta.
  destruct (PZFacts.pz_run_inv S evs _ (PZFacts.instance_new_inv c supported w h st Hc))
    as (_ & _ & _ & Sc & P).
  split; [exact Sc | exact P].
Qed.

Lemma instance_scale_and_stacking_witness :
  Options.scale_range Options.DEFAULT_OPTIONS /\
  let zc := PinchZoom.zoomController
              (PinchZoom.pz_run (fun _ => NaN)
                 (PinchZoom.instance_new Options.DEFAULT_OPTIONS false (fin 100) (fin 100)
                    (Zoom.mkStyle "" "" "" "" "" "")) [PinchZoom.TransitionEnd]) in
  (Zoom.zc_currentScale zc = NaN \/
   exists q, Zoom.zc_currentScale zc = Fin q /\ (1 # 10) <= q /\ q <= 10) /\
  (Zoom.ts_isZoomed (Zoom.getTransformState zc) = true ->
   Zoom.st_position (Zoom.style zc) = "relative"%string /\
   Zoom.st_zIndex (Zoom.style zc) <> ""%string).
Proof.
  assert (R : Options.scale_range Options.DEFAULT_OPTIONS)
    by (exists 1, 5; repeat split; cbn; lra).
  split; [exact R|].
  apply (instance_scale_and_stacking (fun _ => NaN) Options.DEFAULT_OPTIONS false (fin 100)
           (fin 100) (Zoom.mkStyle "" "" "" "" "" "") [PinchZoom.TransitionEnd]).
  exact R.
Defined.

Module MoveFacts.
Import JSFacts.

(** The move handler's opacity for a finite clamped scale [c] and a
    maximum [M > 1]: in (0, 0.8] above scale 1, at most 0 otherwise. *)
Lemma move_opacity_range (M c : Q) :
  1 < M ->
  (1 < c -> exists q, move_opacity (Fin M) (Fin c) = Fin q /\ 0 < q /\ q <= 4 # 5) /\
  (c <= 1 -> exists q, move_opacity (Fin M) (Fin c) = Fin q /\ q <= 0).
Proof.
  intros HM. rewrite Formula.move_opacity_Fin by (intros E; lra).
  change n08 with (Fin (4 # 5)). unfold fin. rewrite min_Fin.
  split; intros Hc.
  - assert (Hx : 0 < (4 # 5) * (c - 1) / (M - 1)).
    { apply Qlt_shift_div_l; [lra|]. rewrite Qmult_0_l. lra. }
    destruct (Qlt_bool (4 # 5) (Qred ((4 # 5) * (c - 1) / (M - 1)))) eqn:E.
    + exists (4 # 5). split; [reflexivity|]. split; lra.
    + exists (Qred ((4 # 5) * (c - 1) / (M - 1))). split; [reflexivity|].
      apply Qlt_bool_false in E. rewrite Qred_correct in E |- *. split; lra.
  - assert (Hx : (4 # 5) * (c - 1) / (M - 1) <= 0).
    { apply Qle_shift_div_r; [lra|]. rewrite Qmult_0_l. lra. }
    destruct (Qlt_bool (4 # 5) (Qred ((4 # 5) * (c - 1) / (M - 1)))) eqn:E.
    + apply Qlt_bool_iff in E. rewrite Qred_correct in E. lra.
    + exists (Qred ((4 # 5) * (c - 1) / (M - 1))). split; [reflexivity|].
      rewrite Qred_correct. exact Hx.
Qed.

End MoveFacts.

(** ** The orchestrator's move callback and the backdrop *)

(** With validated bounds and a scale factor other than [NaN], a move
    whose clamped scale is above 1 shows the backdrop in the configured
    color at the move's opacity, which lies in (0, 0.8]; a move whose
    clamped scale is at most 1 makes the backdrop transparent and
    schedules one more 100 ms hide timer (for opacity 0). *)
Theorem onTouchMove_backdrop (pz : PinchZoom.PZ) (sf : num) :
  Options.scale_range (PinchZoom.options pz) -> sf <> NaN ->
  let cs := move_clampedScale (Options.minScale (PinchZoom.options pz))
              (Options.maxScale (PinchZoom.options pz)) sf in
  let om := PinchZoom.overlayManager pz in
  let om' := PinchZoom.overlayManager (PinchZoom.onTouchMove pz sf) in
  (gt cs (fin 1) = true ->
   exists q, move_opacity (Options.maxScale (PinchZoom.options pz)) cs = Fin q /\
     0 < q /\ q <= 4 # 5 /\
     Overlay.displayed om' =
       Some (Overlay.parseBackgroundColor (Overlay.optBackgroundColor om) (Fin q)) /\
     Overlay.isVisible om' = true) /\
  (gt cs (fin 1) = false ->
   exists el, Overlay.overlay om' = Some el /\
     Overlay.ov_backgroundColor el = "rgba(255, 255, 255, 0)"%string /\
     Overlay.timers om' = (Overlay.timers om ++ [fin 0])%list).
Proof.
  intros (mn & mx & Hmn & Hmx & H1 & H2 & H3 & H4) Hs. cbv zeta.
  unfold PinchZoom.onTouchMove, PinchZoom.set_parts. cbv zeta.
  cbn [PinchZoom.overlayManager]. rewrite Hmn, Hmx.
  change (move_clampedScale (Fin mn) (Fin mx) sf) with (clamp sf (Fin mn) (Fin mx)).
  destruct (Formula.clamp_bounds sf mn mx Hs ltac:(lra)) as [L U].
  destruct (clamp sf (Fin mn) (Fin mx)) as [c| | |];
    [| cbn in U; discriminate U | cbn in L; discriminate L | cbn in L; discriminate L].
  apply JSFacts.le_Fin in L, U.
  destruct (MoveFacts.move_opacity_range mx c H3) as [P N].
  change (gt (Fin c) (fin 1)) with (Qlt_bool 1 c).
  split; intros G.
  - apply JSFacts.Qlt_bool_iff in G. destruct (P G) as (q & Eq & Q1 & Q2).
    rewrite Eq.
    pose proof (PZFacts.updateOverlay_positive (PinchZoom.overlayManager pz) (Fin q)) as UP.
    rewrite PZFacts.clampop_pos in UP by lra.
    destruct UP as [D V]; [apply JSFacts.Qlt_bool_iff; exact Q1|].
    exists q. repeat split; auto.
  - apply JSFacts.Qlt_bool_false in G. destruct (N G) as (q & Eq & Q1).
    rewrite Eq.
    pose proof (PZFacts.updateOverlay_nonpositive (PinchZoom.overlayManager pz) (Fin q)) as UP.
    rewrite PZFacts.clampop_nonpos in UP by exact Q1.
    exact (UP eq_refl).
Qed.

Lemma onTouchMove_backdrop_witness :
  let pz := PinchZoom.instance_new Options.DEFAULT_OPTIONS true (fin 100) (fin 100)
              (Zoom.mkStyle "" "" "" "" "" "") in
  Options.scale_range (PinchZoom.options pz) /\ fin 3 <> NaN /\
  exists q, move_opacity (Options.maxScale (PinchZoom.options pz))
              (move_clampedScale (Options.minScale (PinchZoom.options pz))
                 (Options.maxScale (PinchZoom.options pz)) (fin 3)) = Fin q /\
     0 < q /\ q <= 4 # 5 /\
     Overlay.displayed (PinchZoom.overlayManager (PinchZoom.onTouchMove pz (fin 3))) =
       Some (Overlay.parseBackgroundColor
               (Overlay.optBackgroundColor (PinchZoom.overlayManager pz)) (Fin q)) /\
     Overlay.isVisible (PinchZoom.overlayManager (PinchZoom.onTouchMove pz (fin 3))) = true.
Proof.
  cbv zeta.
  assert (R : Options.scale_range Options.DEFAULT_OPTIONS)
    by (exists 1, 5; repeat split; cbn; lra).
  split; [exact R|]. split; [discriminate|].
  apply (proj1 (onTouchMove_backdrop
    (PinchZoom.instance_new Options.DEFAULT_OPTIONS true (fin 100) (fin 100)
       (Zoom.mkStyle "" "" "" "" "" "")) (fin 3) R ltac:(discriminate))).
  vm_compute. reflexivity.
Defined.

(** ** The orchestrator: the end of a gesture *)

(** After a gesture ends ([onTouchEnd]), the element's [transitionend]
    arrives and the 50 ms timer it schedules fires, the element is back at
    scale 1 with no translation, not zoomed, its z-index and position are
    cleared, the transition timer count is as before, and once the
    overlay's pending timers have fired the backdrop is hidden with no
    timer left, whatever the instance's state before. *)
Theorem gesture_end_settles (pz : PinchZoom.PZ) :
  let pz3 := PinchZoom.fireTransitionTimer
               (PinchZoom.onTransitionEnd (PinchZoom.onTouchEnd pz)) in
  let zc := PinchZoom.zoomController pz3 in
  let om := Overlay.flushTimers (PinchZoom.overlayManager pz3) in
  Zoom.getTransformState zc = Zoom.mkTransformState (fin 1) (fin 0) (fin 0) false /\
  Zoom.st_zIndex (Zoom.style zc) = ""%string /\
  Zoom.st_position (Zoom.style zc) = ""%string /\
  PinchZoom.transitionTimers pz3 = PinchZoom.transitionTimers pz /\
  Overlay.displayed om = None /\ Overlay.isVisible om = false /\ Overlay.timers om = [].
Proof.
  cbv zeta.
  assert (Z : Zoom.getTransformState (Zoom.handleTransitionEnd (snd (Zoom.resetTransform
                (PinchZoom.zoomController pz)))) = Zoom.mkTransformState (fin 1) (fin 0) (fin 0) false /\
              Zoom.st_zIndex (Zoom.style (Zoom.handleTransitionEnd (snd (Zoom.resetTransform
                (PinchZoom.zoomController pz))))) = ""%string /\
              Zoom.st_position (Zoom.style (Zoom.handleTransitionEnd (snd (Zoom.resetTransform
                (PinchZoom.zoomController pz))))) = ""%string).
  { destruct (PinchZoom.zoomController pz) as [mn mx zi [|] w h sc x y st];
      repeat split. }
  unfold PinchZoom.fireTransitionTimer, PinchZoom.onTransitionEnd, PinchZoom.onTouchEnd,
    PinchZoom.set_parts.
  cbn [PinchZoom.transitionTimers PinchZoom.zoomController PinchZoom.overlayManager].
  destruct Z as (Z1 & Z2 & Z3). rewrite Z1. cbn [Zoom.ts_isZoomed PinchZoom.transitionTimers
    PinchZoom.zoomController PinchZoom.overlayManager].
  destruct (OverlayFacts.updateOverlay_zero_flush
              (snd (Overlay.updateOverlay (PinchZoom.overlayManager pz) (fin 0))))
    as (el & E1 & E2 & E3 & E4).
  rewrite Z1. repeat split; auto.
  unfold Overlay.displayed. rewrite E1, E2. reflexivity.
Qed.
